(** * pb_teleop_twist_joy: joystick teleoperation node

    A shallow embedding of [src/pb_teleop_twist_joy.cpp] and the properties
    of its input-to-command translation.

    Conventions of the embedding

    - C++ [double] is Rocq's primitive binary64 [float]; every arithmetic
      operation and comparison below is the IEEE 754 one.  The [float32]
      axes of a [sensor_msgs/Joy] message are held as the [double] values
      they promote to (the promotion is exact).
    - [int64_t] parameters and [rclcpp::Time] nanosecond counts are [Z].
      [static_cast<int>] of a container size is written out with its
      wrap-around.
    - [std::map] is a [gmap]; [std::vector] is a [list]; reading a vector
      out of range is undefined behaviour and is modelled as [None].
    - The node's members and function-local statics form the record [Node];
      the clock, the transform buffer and the publishers form the
      environment of one callback: a clock read consumes the next reading,
      a publication appends to the trace of outputs. *)

From Stdlib Require Import ZArith NArith Floats Uint63 Bool Lia.
From stdpp Require Import base option strings gmap list.

#[local] Set Warnings "-inexact-float".
#[local] Open Scope Z_scope.

(** ** Machine integers and containers *)

(** [static_cast<int>(n)] for a [size_t] value [n]: reduction into the
    signed 32-bit range. *)
Definition static_cast_int (n : Z) : Z := (n + 2 ^ 31) mod 2 ^ 32 - 2 ^ 31.

(** [v.size()] *)
Definition size {A} (v : list A) : Z := Z.of_nat (length v).

(** [v[i]] for a signed index [i]: a negative index converts to a huge
    [size_t]; every index outside [0 .. size-1] is an out-of-range read. *)
Definition vec_at {A} (v : list A) (i : Z) : option A :=
  if i <? 0 then None else v !! Z.to_nat i.

(** [m[k]] on a map of maps: an absent key yields the empty inner map. *)
Definition map_index (m : gmap string (gmap string float)) (k : string)
  : gmap string float :=
  default ∅ (m !! k).

(** ** Messages *)

(** [sensor_msgs::msg::Joy] *)
Record Joy := mkJoy {
  axes : list float;
  buttons : list Z
}.

(** [rclcpp::Time], in nanoseconds. *)
Definition Time := Z.

(** [geometry_msgs::msg::Twist] *)
Record Twist := mkTwist {
  linear_x : float; linear_y : float; linear_z : float;
  angular_x : float; angular_y : float; angular_z : float
}.

(** A value-initialised [Twist]. *)
Definition zero_twist : Twist := mkTwist 0 0 0 0 0 0.

(** [sensor_msgs::msg::JointState] (the fields the node fills). *)
Record JointState := mkJointState {
  js_stamp : Time;
  js_name : list string;
  js_position : list float
}.

(** [geometry_msgs::msg::TransformStamped], as the buffer returns it. *)
Record TransformStamped := mkTransform {
  tf_stamp : Time;
  tf_translation : float * float * float;
  tf_rotation : float * float * float * float
}.

(** [NavigateToPose::Goal]: the goal pose is [tf2::doTransform] of the
    local pose [(goal_x, goal_y)] by [goal_transform]; [goal_stamp] is the
    stamp written into the header before the transformation. *)
Record Goal := mkGoal {
  goal_stamp : Time;
  goal_x : float;
  goal_y : float;
  goal_transform : TransformStamped
}.

(** What one callback sends out, in order. *)
Inductive Output :=
| PubCmdVel (t : Twist)
| PubCmdVelStamped (stamp : Time) (frame_id : string) (t : Twist)
| PubJointState (m : JointState)
| SendGoal (g : Goal)
| CancelGoalsBefore (t : Time)
| Warn.

(** ** Value mapper *)

Definition getVal (joy_msg : Joy) (axis_map : gmap string Z)
    (scale_map : gmap string float) (fieldname : string) : option float :=
  match axis_map !! fieldname with
  | None => Some 0%float
  | Some idx =>
    if idx =? -1 then Some 0%float
    else match scale_map !! fieldname with
         | None => Some 0%float
         | Some scale =>
           if static_cast_int (size (axes joy_msg)) <=? idx then Some 0%float
           else a ← vec_at (axes joy_msg) idx; Some (a * scale)%float
         end
  end.

(** ** Configuration and state of the node *)

(** The members set by the constructor from the parameters; no callback
    changes them. *)
Record Config := mkConfig {
  publish_stamped_twist_ : bool;
  robot_base_frame_ : string;
  require_enable_button_ : bool;
  enable_button_ : Z;
  enable_turbo_button_ : Z;
  inverted_reverse_ : bool;
  control_mode_ : string;
  axis_chassis_map_ : gmap string Z;
  axis_gimbal_map_ : gmap string Z;
  scale_chassis_map_ : gmap string (gmap string float);
  scale_gimbal_map_ : gmap string (gmap string float)
}.

(** The mutable state: the member [sent_disable_msg_], the statics
    [pitch], [yaw], [last_time] of [fillJointStateMsg] and the static
    [last_goal_time] of [sendGoalPoseAction].  A static with a dynamic
    initialiser is [None] until control first passes its declaration. *)
Record Node := mkNode {
  sent_disable_msg_ : bool;
  pitch : float;
  yaw : float;
  last_time : option Time;
  last_goal_time : option Time
}.

Definition set_sent_disable_msg (b : bool) (n : Node) : Node :=
  mkNode b (pitch n) (yaw n) (last_time n) (last_goal_time n).
Definition set_pitch (p : float) (n : Node) : Node :=
  mkNode (sent_disable_msg_ n) p (yaw n) (last_time n) (last_goal_time n).
Definition set_yaw (y : float) (n : Node) : Node :=
  mkNode (sent_disable_msg_ n) (pitch n) y (last_time n) (last_goal_time n).
Definition set_last_time (t : Time) (n : Node) : Node :=
  mkNode (sent_disable_msg_ n) (pitch n) (yaw n) (Some t) (last_goal_time n).
Definition set_last_goal_time (t : Time) (n : Node) : Node :=
  mkNode (sent_disable_msg_ n) (pitch n) (yaw n) (last_time n) (Some t).

(** ** The environment of a callback and the monad of its effects *)

(** [now_reads k] is what the [k]-th call of [this->now()] in the callback
    returns; [lookupTransform] is the answer of the transform buffer,
    [None] when it throws a [tf2::TransformException]. *)
Record Env := mkEnv {
  now_reads : nat → Time;
  lookupTransform : option TransformStamped
}.

Record St := mkSt {
  node : Node;
  reads : nat;
  trace : list Output
}.

(** A computation reads the environment, changes the state, and is [None]
    when it runs into undefined behaviour. *)
Definition M (A : Type) : Type := Env → St → option (A * St).

#[global] Instance M_ret : MRet M := λ A a _ s, Some (a, s).
#[global] Instance M_bind : MBind M := λ A B f m e s,
  match m e s with
  | Some (a, s') => f a e s'
  | None => None
  end.

(** A pure, possibly undefined, value. *)
Definition lift {A} (o : option A) : M A := λ _ s,
  match o with Some a => Some (a, s) | None => None end.

(** [this->now()] *)
Definition now : M Time := λ e s,
  Some (now_reads e (reads s), mkSt (node s) (S (reads s)) (trace s)).

(** [tf_buffer_->lookupTransform(...)], with the exception as [None]. *)
Definition lookup : M (option TransformStamped) := λ e s,
  Some (lookupTransform e, s).

Definition publish (o : Output) : M unit := λ _ s,
  Some (tt, mkSt (node s) (reads s) (trace s ++ [o])).

Definition get {A} (f : Node → A) : M A := λ _ s, Some (f (node s), s).

Definition modify (f : Node → Node) : M unit := λ _ s,
  Some (tt, mkSt (f (node s)) (reads s) (trace s)).

(** ** Time *)

(** Conversion of a signed 64-bit count to [double] (round to nearest). *)
Definition double_of_int64 (z : Z) : float :=
  if z <? 0 then (- of_uint63 (Uint63.of_Z (- z)))%float
  else of_uint63 (Uint63.of_Z z).

(** [rclcpp::Duration::seconds()] of a duration of [d] nanoseconds. *)
Definition Duration_seconds (d : Z) : float :=
  (double_of_int64 d / 1e9)%float.

(** ** The node's member functions *)

Section TeleopTwistJoyNode.

Context (cfg : Config).

Definition fillCmdVelMsg (joy_msg : Joy) (which_map : string) : option Twist :=
  lin_x ← getVal joy_msg (axis_chassis_map_ cfg)
             (map_index (scale_chassis_map_ cfg) which_map) "x";
  ang_z ← getVal joy_msg (axis_gimbal_map_ cfg)
             (map_index (scale_gimbal_map_ cfg) which_map) "yaw";
  lin_y ← getVal joy_msg (axis_chassis_map_ cfg)
             (map_index (scale_chassis_map_ cfg) which_map) "y";
  lin_z ← getVal joy_msg (axis_chassis_map_ cfg)
             (map_index (scale_chassis_map_ cfg) which_map) "z";
  let ang_z' :=
    if (lin_x <? 0)%float && inverted_reverse_ cfg then (- ang_z)%float
    else ang_z in
  ang_y ← getVal joy_msg (axis_gimbal_map_ cfg)
             (map_index (scale_gimbal_map_ cfg) which_map) "pitch";
  ang_x ← getVal joy_msg (axis_gimbal_map_ cfg)
             (map_index (scale_gimbal_map_ cfg) which_map) "roll";
  Some (mkTwist lin_x lin_y lin_z ang_x ang_y ang_z').

Definition fillJointStateMsg (joy_msg : Joy) (which_map : string)
  : M JointState :=
  init ← get last_time;
  last ← match init with
         | Some t => mret t
         | None => now
         end;
  current_time ← now;
  let dt := Duration_seconds (current_time - last) in
  modify (set_last_time current_time);;
  vp ← lift (getVal joy_msg (axis_gimbal_map_ cfg)
               (map_index (scale_gimbal_map_ cfg) which_map) "pitch");
  p ← get pitch;
  modify (set_pitch (p + vp * dt)%float);;
  vy ← lift (getVal joy_msg (axis_gimbal_map_ cfg)
               (map_index (scale_gimbal_map_ cfg) which_map) "yaw");
  y ← get yaw;
  modify (set_yaw (y + vy * dt)%float);;
  p' ← get pitch;
  y' ← get yaw;
  mret (mkJointState current_time
          ["gimbal_pitch_joint"; "gimbal_yaw_joint"] [p'; y']).

(** The test of the goal-submission throttle on an elapsed time of [d]
    nanoseconds: [(current_time - last_goal_time).seconds() >= 0.25]. *)
Definition throttle_open (d : Z) : bool :=
  (0.25 <=? Duration_seconds d)%float.

(** The deadzone test [abs(x) <= 0.1 && abs(y) <= 0.1]; on a [double]
    argument [abs] is the floating-point absolute value. *)
Definition in_deadzone (x y : float) : bool :=
  (abs x <=? 0.1)%float && (abs y <=? 0.1)%float.

Definition sendGoalPoseAction (joy_msg : Joy) (which_map : string) : M unit :=
  x ← lift (getVal joy_msg (axis_chassis_map_ cfg)
              (map_index (scale_chassis_map_ cfg) which_map) "x");
  y ← lift (getVal joy_msg (axis_chassis_map_ cfg)
              (map_index (scale_chassis_map_ cfg) which_map) "y");
  if in_deadzone x y then modify (set_sent_disable_msg true)
  else
    stamp ← now;
    r ← lookup;
    match r with
    | None => publish Warn
    | Some transform =>
      init ← get last_goal_time;
      last ← match init with
             | Some t => mret t
             | None => t ← now; modify (set_last_goal_time t);; mret t
             end;
      current_time ← now;
      if throttle_open (current_time - last) then
        publish (SendGoal (mkGoal stamp x y transform));;
        modify (set_last_goal_time current_time)
      else mret tt
    end.

Definition sendCmdVelMsg (joy_msg : Joy) (which_map : string) : M unit :=
  (if String.eqb (control_mode_ cfg) "manual_control" then
     if publish_stamped_twist_ cfg then
       stamp ← now;
       twist ← lift (fillCmdVelMsg joy_msg which_map);
       publish (PubCmdVelStamped stamp (robot_base_frame_ cfg) twist)
     else
       twist ← lift (fillCmdVelMsg joy_msg which_map);
       publish (PubCmdVel twist)
   else sendGoalPoseAction joy_msg which_map);;
  joint_state_msg ← fillJointStateMsg joy_msg which_map;
  publish (PubJointState joint_state_msg);;
  modify (set_sent_disable_msg true).

Definition sendZeroCommand : M unit :=
  (if String.eqb (control_mode_ cfg) "auto_control" then
     t ← now; publish (CancelGoalsBefore t)
   else mret tt);;
  if publish_stamped_twist_ cfg then
    stamp ← now;
    publish (PubCmdVelStamped stamp (robot_base_frame_ cfg) zero_twist)
  else publish (PubCmdVel zero_twist).

(** The condition of the first [if] of [joyCallback]. *)
Definition turbo_cond (joy_msg : Joy) : option bool :=
  if (0 <=? enable_turbo_button_ cfg)
     && (enable_turbo_button_ cfg <? static_cast_int (size (buttons joy_msg)))
  then b ← vec_at (buttons joy_msg) (enable_turbo_button_ cfg);
       Some (negb (b =? 0))
  else Some false.

(** The condition of the [else if] of [joyCallback]. *)
Definition enable_cond (joy_msg : Joy) : option bool :=
  if negb (require_enable_button_ cfg) then Some true
  else if enable_button_ cfg <? static_cast_int (size (buttons joy_msg))
  then b ← vec_at (buttons joy_msg) (enable_button_ cfg);
       Some (negb (b =? 0))
  else Some false.

Definition joyCallback (joy_msg : Joy) : M unit :=
  turbo ← lift (turbo_cond joy_msg);
  if (turbo : bool) then sendCmdVelMsg joy_msg "turbo"
  else
    enabled ← lift (enable_cond joy_msg);
    if (enabled : bool) then sendCmdVelMsg joy_msg "normal"
    else
      armed ← get sent_disable_msg_;
      if (armed : bool) then
        sendZeroCommand;;
        modify (set_sent_disable_msg false)
      else mret tt.

End TeleopTwistJoyNode.

(** ** Runs of the node *)

(** One delivery of a [Joy] message, with the environment it runs in. *)
Record Event := mkEvent {
  ev_joy : Joy;
  ev_env : Env
}.

(** One callback from node state [n]: the next state and what was sent. *)
Definition callback (cfg : Config) (ev : Event) (n : Node)
  : option (Node * list Output) :=
  match joyCallback cfg (ev_joy ev) (ev_env ev) (mkSt n 0 []) with
  | Some (_, s) => Some (node s, trace s)
  | None => None
  end.

(** The callbacks run to completion one after the other. *)
Fixpoint run (cfg : Config) (evs : list Event) (n : Node)
  : option (Node * list Output) :=
  match evs with
  | [] => Some (n, [])
  | ev :: evs' =>
    match callback cfg ev n with
    | Some (n', out) =>
      match run cfg evs' n' with
      | Some (n'', out') => Some (n'', out ++ out')
      | None => None
      end
    | None => None
    end
  end.

(** ** Observations on a trace *)

Definition twist_of (o : Output) : option Twist :=
  match o with
  | PubCmdVel t => Some t
  | PubCmdVelStamped _ _ t => Some t
  | _ => None
  end.

(** The velocity commands of a trace, in order. *)
Definition velocity_commands (out : list Output) : list Twist :=
  omap twist_of out.

Definition goal_of (o : Output) : option Goal :=
  match o with SendGoal g => Some g | _ => None end.

(** The goals submitted in a trace, in order. *)
Definition goals (out : list Output) : list Goal := omap goal_of out.

Definition joint_state_of (o : Output) : option JointState :=
  match o with PubJointState m => Some m | _ => None end.

(** The gimbal joint commands of a trace, in order. *)
Definition joint_states (out : list Output) : list JointState :=
  omap joint_state_of out.

(** ** The classification of a sample *)

Inductive EnableState := Disabled | Normal | Turbo.

(** The branch [joyCallback] takes, from its two conditions. *)
Definition enable_state (cfg : Config) (joy_msg : Joy) : option EnableState :=
  turbo ← turbo_cond cfg joy_msg;
  if (turbo : bool) then Some Turbo
  else enabled ← enable_cond cfg joy_msg;
       Some (if (enabled : bool) then Normal else Disabled).

(** The button at index [i] exists and is set. *)
Definition pressed (bs : list Z) (i : Z) : bool :=
  (0 <=? i) && (i <? size bs)
  && match bs !! Z.to_nat i with Some b => negb (b =? 0) | None => false end.

(** The classification as the specification words it: turbo first, then
    the enable button, else disabled. *)
Definition classify (cfg : Config) (joy_msg : Joy) : EnableState :=
  if (0 <=? enable_turbo_button_ cfg)
     && pressed (buttons joy_msg) (enable_turbo_button_ cfg) then Turbo
  else if negb (require_enable_button_ cfg)
          || pressed (buttons joy_msg) (enable_button_ cfg) then Normal
  else Disabled.

(** A container whose size fits the [int] it is cast to. *)
Definition int_sized {A} (v : list A) : Prop := size v < 2 ^ 31.

(** ** Mapped values of a sample *)

(** [getVal(joy_msg, axis_chassis_map_, scale_chassis_map_[which_map], f)] *)
Definition chassis_val (cfg : Config) (joy_msg : Joy) (which_map f : string)
  : option float :=
  getVal joy_msg (axis_chassis_map_ cfg)
    (map_index (scale_chassis_map_ cfg) which_map) f.

(** [getVal(joy_msg, axis_gimbal_map_, scale_gimbal_map_[which_map], f)] *)
Definition gimbal_val (cfg : Config) (joy_msg : Joy) (which_map f : string)
  : option float :=
  getVal joy_msg (axis_gimbal_map_ cfg)
    (map_index (scale_gimbal_map_ cfg) which_map) f.

(** The scale profile [joyCallback] selects in an enabled state. *)
Definition profile (st : EnableState) : string :=
  match st with Turbo => "turbo" | _ => "normal" end.

Definition enabled (st : EnableState) : bool :=
  match st with Disabled => false | _ => true end.

(** Every mapped index is an axis index or the sentinel -1, and the enable
    button, when one is required, is a button index. *)
Definition wf_config (cfg : Config) : Prop :=
  map_Forall (λ _ idx, -1 <= idx) (axis_chassis_map_ cfg)
  ∧ map_Forall (λ _ idx, -1 <= idx) (axis_gimbal_map_ cfg)
  ∧ (require_enable_button_ cfg = true → 0 <= enable_button_ cfg).

(** The gimbal state: the three statics of [fillJointStateMsg]. *)
Definition gimbal_state (n : Node) : float * float * option Time :=
  (pitch n, yaw n, last_time n).

(** ** Clock reads of the two timed steps *)

(** The time baseline of an integration step that starts with [k] clock
    reads consumed: the stored [last_time], or the read that initialises
    it; and the index of the read that yields its [current_time]. *)
Definition baseline (e : Env) (n : Node) (k : nat) : Time :=
  match last_time n with Some t => t | None => now_reads e k end.
Definition current_read (n : Node) (k : nat) : nat :=
  match last_time n with Some _ => k | None => S k end.

(** The same for a goal attempt that starts with [k] reads consumed; the
    read of index [k] stamps the goal header. *)
Definition throttle_reference (e : Env) (n : Node) (k : nat) : Time :=
  match last_goal_time n with Some t => t | None => now_reads e (S k) end.
Definition throttle_read (n : Node) (k : nat) : nat :=
  match last_goal_time n with Some _ => S k | None => S (S k) end.

(** ** The gimbal integrator, as the specification words it *)

(** One integration step made with [k] clock reads consumed: with [dt] the
    time from the baseline to [current_time], each accumulated angle grows
    by the mapped rate times [dt], and [current_time] is the new baseline. *)
Definition integrate (e : Env) (k : nat) (vp vy : float) (n : Node) : Node :=
  let t := now_reads e (current_read n k) in
  let dt := Duration_seconds (t - baseline e n k) in
  mkNode (sent_disable_msg_ n)
    (pitch n + vp * dt)%float (yaw n + vy * dt)%float
    (Some t) (last_goal_time n).

(** The joint command of that step: the accumulated angles after it. *)
Definition joint_command (e : Env) (k : nat) (vp vy : float) (n : Node)
  : JointState :=
  mkJointState (now_reads e (current_read n k))
    ["gimbal_pitch_joint"; "gimbal_yaw_joint"]
    [pitch (integrate e k vp vy n); yaw (integrate e k vp vy n)].

(** ** The stop sequence *)

(** What [sendZeroCommand] sends. *)
Definition stop_outputs (cfg : Config) (e : Env) : list Output :=
  if String.eqb (control_mode_ cfg) "auto_control" then
    [CancelGoalsBefore (now_reads e 0);
     if publish_stamped_twist_ cfg
     then PubCmdVelStamped (now_reads e 1) (robot_base_frame_ cfg) zero_twist
     else PubCmdVel zero_twist]
  else
    [if publish_stamped_twist_ cfg
     then PubCmdVelStamped (now_reads e 0) (robot_base_frame_ cfg) zero_twist
     else PubCmdVel zero_twist].

(** ** Example configurations and samples *)

Definition identity_transform : TransformStamped :=
  mkTransform 0 (0, 0, 0)%float (0, 0, 0, 1)%float.

(** Chassis x, y on axes 0, 1 at the normal scale [scale]; gimbal yaw,
    pitch on axes 2, 3; enable on button 0 and turbo on button 1. *)
Definition example_config (mode : string) (stamped inverted : bool)
    (scale : float) : Config :=
  mkConfig stamped "base_link" true 0 1 inverted mode
    (<["x" := 0]> (<["y" := 1]> (<["yaw" := -1]> ∅)))
    (<["yaw" := 2]> (<["pitch" := 3]> (<["roll" := -1]> ∅)))
    (<["normal" := <["x" := scale]> (<["y" := scale]> ∅)]>
       (<["turbo" := <["x" := 1%float]> (<["y" := 1%float]> ∅)]> ∅))
    (<["normal" := <["yaw" := 0.3%float]> (<["pitch" := 0.5%float]> ∅)]>
       (<["turbo" := <["yaw" := 1%float]> (<["pitch" := 1%float]> ∅)]> ∅)).

(** A sample with the enable button held, turbo released. *)
Definition example_joy (x y yaw_rate pitch_rate : float) : Joy :=
  mkJoy [x; y; yaw_rate; pitch_rate] [1; 0].

(** A sample with every button released. *)
Definition released_joy : Joy := mkJoy [0; 0; 0; 0]%float [0; 0].

(** The same node with the enable button set to -1. *)
Definition negative_enable_config : Config :=
  mkConfig false "base_link" true (-1) (-1) false "manual_control"
    (<["x" := 0]> ∅) (<["yaw" := 2]> ∅)
    (<["normal" := <["x" := 0.5%float]> ∅]> ∅)
    (<["normal" := <["yaw" := 0.5%float]> ∅]> ∅).

(** An environment whose clock stands at [t] during the callback. *)
Definition env_at (t : Time) (tf : option TransformStamped) : Env :=
  mkEnv (λ _, t) tf.

(** A node that has processed nothing yet. *)
Definition fresh_node : Node := mkNode false 0 0 None None.

(** ** The throttle test on machine integers *)

(** The throttle test, as [sendGoalPoseAction] computes it, on an elapsed
    time of [i] nanoseconds held in a machine integer. *)
Definition throttle_test (i : int) : bool :=
  (0.25 <=? of_uint63 i / 1e9)%float.

(** [x] is a NaN or carries the sign [s]. *)
Definition signed (s : bool) (x : spec_float) : Prop :=
  match x with
  | S754_zero s' | S754_infinity s' | S754_finite s' _ _ => s' = s
  | S754_nan => True
  end.

(** The example node in goal-directed and in manual mode, with reverse
    steering inverted and a chassis scale of 0.5. *)
Definition auto_config : Config := example_config "auto_control" false true 0.5.
Definition manual_config : Config :=
  example_config "manual_control" false true 0.5.

(** Full stick forward and left, yaw rate 1: mapped displacement (0.5, 0.5). *)
Definition drive_joy : Joy := example_joy 1 1 1 0.

(** Full stick backward, yaw rate 1: mapped linear x of -0.5, yaw of 0.3. *)
Definition reverse_joy : Joy := example_joy (-1) 0 1 0.

(** [drive_joy] delivered at clock time [t] with the transform available. *)
Definition drive_event (t : Time) : Event :=
  mkEvent drive_joy (env_at t (Some identity_transform)).

(** [released_joy] delivered at clock time [t]. *)
Definition released_event (t : Time) : Event :=
  mkEvent released_joy (env_at t None).

(** ** The paths of a callback *)

(** The velocity message of the manual branch and the index of the clock
    read that follows it: the stamped form takes its stamp from the clock. *)
Definition velocity_output (cfg : Config) (e : Env) (twist : Twist) : Output :=
  if publish_stamped_twist_ cfg
  then PubCmdVelStamped (now_reads e 0) (robot_base_frame_ cfg) twist
  else PubCmdVel twist.
Definition reads_after_velocity (cfg : Config) : nat :=
  if publish_stamped_twist_ cfg then 1%nat else 0%nat.

(** [callback_step cfg ev n n' out]: the callback, run on event [ev] in
    node state [n], takes one of the seven paths of [joyCallback] and its
    callees, ends in state [n'] and sends [out]. *)
Inductive callback_step (cfg : Config) (ev : Event) (n : Node)
  : Node → list Output → Prop :=
| step_idle :
    enable_state cfg (ev_joy ev) = Some Disabled →
    sent_disable_msg_ n = false →
    callback_step cfg ev n n []
| step_stop :
    enable_state cfg (ev_joy ev) = Some Disabled →
    sent_disable_msg_ n = true →
    callback_step cfg ev n (set_sent_disable_msg false n)
      (stop_outputs cfg (ev_env ev))
| step_manual st vp vy twist :
    enable_state cfg (ev_joy ev) = Some st →
    enabled st = true →
    gimbal_val cfg (ev_joy ev) (profile st) "pitch" = Some vp →
    gimbal_val cfg (ev_joy ev) (profile st) "yaw" = Some vy →
    control_mode_ cfg = "manual_control" →
    fillCmdVelMsg cfg (ev_joy ev) (profile st) = Some twist →
    callback_step cfg ev n
      (set_sent_disable_msg true
         (integrate (ev_env ev) (reads_after_velocity cfg) vp vy n))
      [velocity_output cfg (ev_env ev) twist;
       PubJointState
         (joint_command (ev_env ev) (reads_after_velocity cfg) vp vy n)]
| step_deadzone st vp vy x y :
    enable_state cfg (ev_joy ev) = Some st →
    enabled st = true →
    gimbal_val cfg (ev_joy ev) (profile st) "pitch" = Some vp →
    gimbal_val cfg (ev_joy ev) (profile st) "yaw" = Some vy →
    control_mode_ cfg ≠ "manual_control" →
    chassis_val cfg (ev_joy ev) (profile st) "x" = Some x →
    chassis_val cfg (ev_joy ev) (profile st) "y" = Some y →
    in_deadzone x y = true →
    callback_step cfg ev n
      (set_sent_disable_msg true (integrate (ev_env ev) 0 vp vy n))
      [PubJointState (joint_command (ev_env ev) 0 vp vy n)]
| step_transform_failure st vp vy x y :
    enable_state cfg (ev_joy ev) = Some st →
    enabled st = true →
    gimbal_val cfg (ev_joy ev) (profile st) "pitch" = Some vp →
    gimbal_val cfg (ev_joy ev) (profile st) "yaw" = Some vy →
    control_mode_ cfg ≠ "manual_control" →
    chassis_val cfg (ev_joy ev) (profile st) "x" = Some x →
    chassis_val cfg (ev_joy ev) (profile st) "y" = Some y →
    in_deadzone x y = false →
    lookupTransform (ev_env ev) = None →
    callback_step cfg ev n
      (set_sent_disable_msg true (integrate (ev_env ev) 1 vp vy n))
      [Warn; PubJointState (joint_command (ev_env ev) 1 vp vy n)]
| step_goal st vp vy x y transform :
    enable_state cfg (ev_joy ev) = Some st →
    enabled st = true →
    gimbal_val cfg (ev_joy ev) (profile st) "pitch" = Some vp →
    gimbal_val cfg (ev_joy ev) (profile st) "yaw" = Some vy →
    control_mode_ cfg ≠ "manual_control" →
    chassis_val cfg (ev_joy ev) (profile st) "x" = Some x →
    chassis_val cfg (ev_joy ev) (profile st) "y" = Some y →
    in_deadzone x y = false →
    lookupTransform (ev_env ev) = Some transform →
    throttle_open (now_reads (ev_env ev) (throttle_read n 0)
                   - throttle_reference (ev_env ev) n 0) = true →
    callback_step cfg ev n
      (set_sent_disable_msg true
         (integrate (ev_env ev) (S (throttle_read n 0)) vp vy
            (set_last_goal_time
               (now_reads (ev_env ev) (throttle_read n 0)) n)))
      [SendGoal (mkGoal (now_reads (ev_env ev) 0) x y transform);
       PubJointState
         (joint_command (ev_env ev) (S (throttle_read n 0)) vp vy
            (set_last_goal_time
               (now_reads (ev_env ev) (throttle_read n 0)) n))]
| step_throttled st vp vy x y transform :
    enable_state cfg (ev_joy ev) = Some st →
    enabled st = true →
    gimbal_val cfg (ev_joy ev) (profile st) "pitch" = Some vp →
    gimbal_val cfg (ev_joy ev) (profile st) "yaw" = Some vy →
    control_mode_ cfg ≠ "manual_control" →
    chassis_val cfg (ev_joy ev) (profile st) "x" = Some x →
    chassis_val cfg (ev_joy ev) (profile st) "y" = Some y →
    in_deadzone x y = false →
    lookupTransform (ev_env ev) = Some transform →
    throttle_open (now_reads (ev_env ev) (throttle_read n 0)
                   - throttle_reference (ev_env ev) n 0) = false →
    callback_step cfg ev n
      (set_sent_disable_msg true
         (integrate (ev_env ev) (S (throttle_read n 0)) vp vy
            (set_last_goal_time (throttle_reference (ev_env ev) n 0) n)))
      [PubJointState
         (joint_command (ev_env ev) (S (throttle_read n 0)) vp vy
            (set_last_goal_time (throttle_reference (ev_env ev) n 0) n))].

(** ** More observations on a trace *)

Definition cancellation_of (o : Output) : option Time :=
  match o with CancelGoalsBefore t => Some t | _ => None end.

(** The cancellation requests of a trace, in order. *)
Definition cancellations (out : list Output) : list Time :=
  omap cancellation_of out.

(** A velocity message has the form [publish_stamped_twist_] selects, and
    a stamped one names the robot's base frame. *)
Definition velocity_form_ok (cfg : Config) (o : Output) : Prop :=
  match o with
  | PubCmdVel _ => publish_stamped_twist_ cfg = false
  | PubCmdVelStamped _ frame_id _ =>
    publish_stamped_twist_ cfg = true ∧ frame_id = robot_base_frame_ cfg
  | _ => True
  end.

(** ** Configurations derived from a given one *)

Definition with_control_mode (mode : string) (cfg : Config) : Config :=
  mkConfig (publish_stamped_twist_ cfg) (robot_base_frame_ cfg)
    (require_enable_button_ cfg) (enable_button_ cfg)
    (enable_turbo_button_ cfg) (inverted_reverse_ cfg) mode
    (axis_chassis_map_ cfg) (axis_gimbal_map_ cfg)
    (scale_chassis_map_ cfg) (scale_gimbal_map_ cfg).

Definition with_inverted_reverse (b : bool) (cfg : Config) : Config :=
  mkConfig (publish_stamped_twist_ cfg) (robot_base_frame_ cfg)
    (require_enable_button_ cfg) (enable_button_ cfg)
    (enable_turbo_button_ cfg) b (control_mode_ cfg)
    (axis_chassis_map_ cfg) (axis_gimbal_map_ cfg)
    (scale_chassis_map_ cfg) (scale_gimbal_map_ cfg).

(** The members as the constructor leaves them when no parameter is
    overridden: the defaults of its [declare_parameter] calls. *)
Definition default_config : Config :=
  mkConfig false "base_link" true 5 (-1) false "manual_control"
    (<["x" := 5]> (<["y" := -1]> (<["yaw" := -1]> ∅)))
    (<["yaw" := 2]> (<["pitch" := -1]> (<["roll" := -1]> ∅)))
    (<["normal" := <["x" := 0.5%float]> (<["y" := 0%float]>
                     (<["z" := 0%float]> ∅))]>
       (<["turbo" := <["x" := 1%float]> (<["y" := 0%float]>
                       (<["z" := 0%float]> ∅))]> ∅))
    (<["normal" := <["yaw" := 0.5%float]> (<["pitch" := 0%float]>
                     (<["roll" := 0%float]> ∅))]>
       (<["turbo" := <["yaw" := 1%float]> (<["pitch" := 0%float]>
                       (<["roll" := 0%float]> ∅))]> ∅)).

(** A message of the two motion topics: a velocity command or a gimbal
    joint command. *)
Definition is_motion_message (o : Output) : bool :=
  match o with
  | PubCmdVel _ | PubCmdVelStamped _ _ _ | PubJointState _ => true
  | _ => false
  end.

(** The example node with the gimbal pitch mapped to the index -2. *)
Definition negative_axis_config : Config :=
  mkConfig false "base_link" true 0 1 false "manual_control"
    (<["x" := 0]> ∅)
    (<["yaw" := 2]> (<["pitch" := -2]> ∅))
    (<["normal" := <["x" := 0.5%float]> ∅]> ∅)
    (<["normal" := <["yaw" := 0.3%float]> (<["pitch" := 0.5%float]> ∅)]> ∅).


(** The example node with a control mode that is neither "manual_control"
    nor "auto_control". *)
Definition idle_config : Config := example_config "idle" false true 0.5.

(** * Properties *)

Arguments getVal : simpl never.

(** ** Integers and containers *)

Lemma static_cast_int_small n :
  0 <= n < 2 ^ 31 → static_cast_int n = n.
Proof.
  intros H. unfold static_cast_int.
  rewrite Z.mod_small by lia. lia.
Qed.

Lemma static_cast_int_size {A} (v : list A) :
  int_sized v → static_cast_int (size v) = size v.
Proof.
  intros H. apply static_cast_int_small. unfold int_sized, size in *. lia.
Qed.

Lemma static_cast_int_le n : 0 <= n → static_cast_int n <= n.
Proof.
  intros H. unfold static_cast_int.
  pose proof (Z.mod_le (n + 2 ^ 31) (2 ^ 32)).
  lia.
Qed.

Lemma vec_at_Some {A} (v : list A) i a :
  vec_at v i = Some a ↔ 0 <= i ∧ v !! Z.to_nat i = Some a.
Proof.
  unfold vec_at. destruct (Z.ltb_spec i 0); split.
  - discriminate.
  - intros [? _]. lia.
  - auto.
  - intros [_ ?]. assumption.
Qed.

Lemma vec_at_in_range {A} (v : list A) i :
  0 <= i < size v → ∃ a, vec_at v i = Some a.
Proof.
  intros [H0 H1]. unfold vec_at, size in *.
  destruct (Z.ltb_spec i 0); [lia |].
  destruct (lookup_lt_is_Some_2 v (Z.to_nat i)) as [a Ha]; [lia |].
  eauto.
Qed.

Lemma vec_at_below_cast {A} (v : list A) i :
  0 <= i < static_cast_int (size v) → ∃ a, vec_at v i = Some a.
Proof.
  intros H. apply vec_at_in_range.
  pose proof (static_cast_int_le (size v)). unfold size in *. lia.
Qed.

(** ** Value mapper *)

Section GetVal.

Context (joy_msg : Joy) (axis_map : gmap string Z)
        (scale_map : gmap string float) (fieldname : string).

Lemma getVal_absent_axis :
  axis_map !! fieldname = None →
  getVal joy_msg axis_map scale_map fieldname = Some 0%float.
Proof. intros H. unfold getVal. by rewrite H. Qed.

Lemma getVal_unmapped :
  axis_map !! fieldname = Some (-1) →
  getVal joy_msg axis_map scale_map fieldname = Some 0%float.
Proof. intros H. unfold getVal. by rewrite H. Qed.

Lemma getVal_absent_scale :
  scale_map !! fieldname = None →
  getVal joy_msg axis_map scale_map fieldname = Some 0%float.
Proof.
  intros H. unfold getVal. rewrite H.
  destruct (axis_map !! fieldname) as [idx|]; [| done].
  by destruct (idx =? -1).
Qed.

Lemma getVal_short idx :
  axis_map !! fieldname = Some idx →
  static_cast_int (size (axes joy_msg)) <= idx →
  getVal joy_msg axis_map scale_map fieldname = Some 0%float.
Proof.
  intros H Hle. unfold getVal. rewrite H.
  destruct (idx =? -1); [done |].
  destruct (scale_map !! fieldname); [| done].
  destruct (Z.leb_spec (static_cast_int (size (axes joy_msg))) idx); [done | lia].
Qed.

Lemma getVal_mapped idx scale :
  axis_map !! fieldname = Some idx →
  idx ≠ -1 →
  scale_map !! fieldname = Some scale →
  idx < static_cast_int (size (axes joy_msg)) →
  getVal joy_msg axis_map scale_map fieldname
  = a ← vec_at (axes joy_msg) idx; Some (a * scale)%float.
Proof.
  intros H Hne Hs Hlt. unfold getVal. rewrite H, Hs.
  destruct (Z.eqb_spec idx (-1)); [done |].
  destruct (Z.leb_spec (static_cast_int (size (axes joy_msg))) idx); [lia | done].
Qed.

(** A mapped index below the sentinel passes every guard and is read out
    of range. *)
Lemma getVal_below_sentinel idx scale :
  axis_map !! fieldname = Some idx →
  idx < -1 →
  scale_map !! fieldname = Some scale →
  idx < static_cast_int (size (axes joy_msg)) →
  getVal joy_msg axis_map scale_map fieldname = None.
Proof.
  intros H Hlt Hs Hsz.
  rewrite (getVal_mapped idx scale) by (done || lia).
  unfold vec_at. destruct (Z.ltb_spec idx 0); [done | lia].
Qed.

(** The mapper is defined whenever the mapped index is an axis index or
    the sentinel. *)
Lemma getVal_defined :
  (∀ idx, axis_map !! fieldname = Some idx → -1 <= idx) →
  ∃ v, getVal joy_msg axis_map scale_map fieldname = Some v.
Proof.
  intros Hwf. unfold getVal.
  destruct (axis_map !! fieldname) as [idx|] eqn:Hidx; [| eauto].
  specialize (Hwf idx eq_refl).
  destruct (Z.eqb_spec idx (-1)); [eauto |].
  destruct (scale_map !! fieldname) as [scale|]; [| eauto].
  destruct (Z.leb_spec (static_cast_int (size (axes joy_msg))) idx); [eauto |].
  destruct (vec_at_below_cast (axes joy_msg) idx) as [a Ha]; [lia |].
  rewrite Ha. simpl. eauto.
Qed.

End GetVal.

(** C1. [getVal] returns 0.0 when the channel is absent from the axis map,
    is mapped to the sentinel -1, is absent from the scale profile, or the
    axis sequence is too short for the mapped index; for a mapped index
    within the axis sequence it returns [axes[index] * scale].  It is a
    function of its arguments, and evaluating it inside a callback leaves
    state and outputs untouched.  In the one remaining case, a mapped
    index below -1 with a scale present, all four guards pass (they bound
    the index from above only) and [axes[index]] is read out of range:
    undefined behaviour, no value. *)
Theorem getVal_spec (joy_msg : Joy) (axis_map : gmap string Z)
    (scale_map : gmap string float) (fieldname : string) :
  int_sized (axes joy_msg) →
  (axis_map !! fieldname = None →
   getVal joy_msg axis_map scale_map fieldname = Some 0%float)
  ∧ (axis_map !! fieldname = Some (-1) →
     getVal joy_msg axis_map scale_map fieldname = Some 0%float)
  ∧ (scale_map !! fieldname = None →
     getVal joy_msg axis_map scale_map fieldname = Some 0%float)
  ∧ (∀ idx, axis_map !! fieldname = Some idx →
       size (axes joy_msg) <= idx →
       getVal joy_msg axis_map scale_map fieldname = Some 0%float)
  ∧ (∀ idx scale,
       axis_map !! fieldname = Some idx →
       0 <= idx < size (axes joy_msg) →
       scale_map !! fieldname = Some scale →
       ∃ a, vec_at (axes joy_msg) idx = Some a
            ∧ getVal joy_msg axis_map scale_map fieldname
              = Some (a * scale)%float)
  ∧ (∀ idx scale,
       axis_map !! fieldname = Some idx →
       idx < -1 →
       scale_map !! fieldname = Some scale →
       vec_at (axes joy_msg) idx = None
       ∧ getVal joy_msg axis_map scale_map fieldname = None)
  ∧ (∀ e s v s',
       lift (getVal joy_msg axis_map scale_map fieldname) e s = Some (v, s') →
       s' = s).
Proof.
  intros Hsz. pose proof (static_cast_int_size _ Hsz) as Hcast.
  split; [| split; [| split; [| split; [| split; [| split]]]]].
  - apply getVal_absent_axis.
  - apply getVal_unmapped.
  - apply getVal_absent_scale.
  - intros idx H Hle. apply (getVal_short _ _ _ _ idx); [done | lia].
  - intros idx scale H Hrange Hs.
    destruct (vec_at_in_range (axes joy_msg) idx) as [a Ha]; [lia |].
    exists a. split; [exact Ha |].
    rewrite (getVal_mapped _ _ _ _ idx scale) by (done || lia).
    by rewrite Ha.
  - intros idx scale H Hlt Hs. split.
    + unfold vec_at. destruct (Z.ltb_spec idx 0); [done | lia].
    + apply (getVal_below_sentinel _ _ _ _ idx scale); [done | done | done |].
      rewrite Hcast. unfold size. lia.
  - intros e s v s'. unfold lift.
    destruct (getVal _ _ _ _); congruence.
Qed.

(** ** Symbolic execution of the callback *)

Arguments throttle_open : simpl never.
Arguments in_deadzone : simpl never.
Arguments Duration_seconds : simpl never.
Arguments fillCmdVelMsg : simpl never.

Ltac exec :=
  unfold mbind, M_bind, mret, M_ret, lift, now, lookup, publish, get, modify;
  simpl.

Section Execution.

Context (cfg : Config) (joy_msg : Joy) (which_map : string).

Lemma fillCmdVelMsg_eq lx ly lz roll ptch yw :
  chassis_val cfg joy_msg which_map "x" = Some lx →
  chassis_val cfg joy_msg which_map "y" = Some ly →
  chassis_val cfg joy_msg which_map "z" = Some lz →
  gimbal_val cfg joy_msg which_map "roll" = Some roll →
  gimbal_val cfg joy_msg which_map "pitch" = Some ptch →
  gimbal_val cfg joy_msg which_map "yaw" = Some yw →
  fillCmdVelMsg cfg joy_msg which_map
  = Some (mkTwist lx ly lz roll ptch
            (if (lx <? 0)%float && inverted_reverse_ cfg
             then (- yw)%float else yw)).
Proof.
  unfold chassis_val, gimbal_val. intros Hx Hy Hz Hr Hp Hw.
  unfold fillCmdVelMsg. rewrite Hx, Hy, Hz, Hr, Hp, Hw. reflexivity.
Qed.

Lemma fillJointStateMsg_eq e s vp vy :
  gimbal_val cfg joy_msg which_map "pitch" = Some vp →
  gimbal_val cfg joy_msg which_map "yaw" = Some vy →
  let k := current_read (node s) (reads s) in
  let t := now_reads e k in
  let dt := Duration_seconds (t - baseline e (node s) (reads s)) in
  let p := (pitch (node s) + vp * dt)%float in
  let y := (yaw (node s) + vy * dt)%float in
  fillJointStateMsg cfg joy_msg which_map e s
  = Some (mkJointState t ["gimbal_pitch_joint"; "gimbal_yaw_joint"] [p; y],
          mkSt (mkNode (sent_disable_msg_ (node s)) p y (Some t)
                  (last_goal_time (node s)))
            (S k) (trace s)).
Proof.
  unfold gimbal_val. intros Hp Hy. unfold fillJointStateMsg, baseline, current_read.
  exec. destruct (last_time (node s)); exec; rewrite Hp; exec; rewrite Hy; exec;
    reflexivity.
Qed.

End Execution.

Section GoalExecution.

Context (cfg : Config) (joy_msg : Joy) (which_map : string).
Context (x y : float).
Context (Hx : chassis_val cfg joy_msg which_map "x" = Some x).
Context (Hy : chassis_val cfg joy_msg which_map "y" = Some y).

Lemma sendGoalPoseAction_deadzone e s :
  in_deadzone x y = true →
  sendGoalPoseAction cfg joy_msg which_map e s
  = Some (tt, mkSt (set_sent_disable_msg true (node s)) (reads s) (trace s)).
Proof using Hx Hy.
  intros Hd. unfold chassis_val in *. unfold sendGoalPoseAction. exec.
  rewrite Hx. exec. rewrite Hy. exec. rewrite Hd. reflexivity.
Qed.

Lemma sendGoalPoseAction_tf_failure e s :
  in_deadzone x y = false →
  lookupTransform e = None →
  sendGoalPoseAction cfg joy_msg which_map e s
  = Some (tt, mkSt (node s) (S (reads s)) (trace s ++ [Warn])).
Proof using Hx Hy.
  intros Hd Htf. unfold chassis_val in *. unfold sendGoalPoseAction. exec.
  rewrite Hx. exec. rewrite Hy. exec. rewrite Hd, Htf. reflexivity.
Qed.

Lemma sendGoalPoseAction_attempt e s transform :
  in_deadzone x y = false →
  lookupTransform e = Some transform →
  let ref := throttle_reference e (node s) (reads s) in
  let k := throttle_read (node s) (reads s) in
  let t := now_reads e k in
  sendGoalPoseAction cfg joy_msg which_map e s
  = Some (tt,
          if throttle_open (t - ref) then
            mkSt (set_last_goal_time t (node s)) (S k)
              (trace s ++ [SendGoal (mkGoal (now_reads e (reads s)) x y transform)])
          else mkSt (set_last_goal_time ref (node s)) (S k) (trace s)).
Proof using Hx Hy.
  intros Hd Htf. unfold chassis_val in *.
  unfold sendGoalPoseAction, throttle_reference, throttle_read. exec.
  rewrite Hx. exec. rewrite Hy. exec. rewrite Hd, Htf.
  destruct s as [[sent p yw lt lg] k tr]. simpl.
  destruct lg as [t0|]; simpl;
    match goal with |- context [throttle_open ?d] =>
      destruct (throttle_open d) end; reflexivity.
Qed.

End GoalExecution.

(** ** The callback, branch by branch *)

Lemma joyCallback_dispatch cfg joy_msg e s :
  joyCallback cfg joy_msg e s
  = match enable_state cfg joy_msg with
    | None => None
    | Some Disabled =>
      if sent_disable_msg_ (node s) then
        (sendZeroCommand cfg;; modify (set_sent_disable_msg false)) e s
      else Some (tt, s)
    | Some st => sendCmdVelMsg cfg joy_msg (profile st) e s
    end.
Proof.
  unfold joyCallback, enable_state. exec.
  destruct (turbo_cond cfg joy_msg) as [[|]|]; simpl; try reflexivity.
  destruct (enable_cond cfg joy_msg) as [[|]|]; simpl; try reflexivity.
  destruct (sent_disable_msg_ (node s)); reflexivity.
Qed.

Lemma sendZeroCommand_eq cfg e n :
  ∃ k, sendZeroCommand cfg e (mkSt n 0 [])
       = Some (tt, mkSt n k (stop_outputs cfg e)).
Proof.
  unfold sendZeroCommand, stop_outputs. exec.
  destruct (String.eqb (control_mode_ cfg) "auto_control");
    destruct (publish_stamped_twist_ cfg); simpl; eauto.
Qed.

Section Callback.

Context (cfg : Config) (ev : Event) (n : Node).

Lemma callback_disabled_armed :
  enable_state cfg (ev_joy ev) = Some Disabled →
  sent_disable_msg_ n = true →
  callback cfg ev n
  = Some (set_sent_disable_msg false n, stop_outputs cfg (ev_env ev)).
Proof.
  intros Hst Harmed. unfold callback.
  rewrite joyCallback_dispatch, Hst. simpl. rewrite Harmed.
  exec. destruct (sendZeroCommand_eq cfg (ev_env ev) n) as [k ->]. reflexivity.
Qed.

Lemma callback_disabled_idle :
  enable_state cfg (ev_joy ev) = Some Disabled →
  sent_disable_msg_ n = false →
  callback cfg ev n = Some (n, []).
Proof.
  intros Hst Hidle. unfold callback.
  rewrite joyCallback_dispatch, Hst. simpl. rewrite Hidle. reflexivity.
Qed.

Lemma callback_enabled st :
  enable_state cfg (ev_joy ev) = Some st →
  enabled st = true →
  callback cfg ev n
  = match sendCmdVelMsg cfg (ev_joy ev) (profile st) (ev_env ev) (mkSt n 0 [])
    with
    | Some (_, s) => Some (node s, trace s)
    | None => None
    end.
Proof.
  intros Hst Hen. unfold callback.
  rewrite joyCallback_dispatch, Hst. destruct st; [discriminate | done | done].
Qed.

End Callback.

Section EnabledCallback.

Context (cfg : Config) (ev : Event) (n : Node) (st : EnableState).
Context (vp vy : float).
Context (Hst : enable_state cfg (ev_joy ev) = Some st).
Context (Hen : enabled st = true).
Context (Hp : gimbal_val cfg (ev_joy ev) (profile st) "pitch" = Some vp).
Context (Hw : gimbal_val cfg (ev_joy ev) (profile st) "yaw" = Some vy).

Lemma callback_manual twist :
  control_mode_ cfg = "manual_control" →
  fillCmdVelMsg cfg (ev_joy ev) (profile st) = Some twist →
  callback cfg ev n
  = if publish_stamped_twist_ cfg then
      Some (set_sent_disable_msg true (integrate (ev_env ev) 1 vp vy n),
            [PubCmdVelStamped (now_reads (ev_env ev) 0)
               (robot_base_frame_ cfg) twist;
             PubJointState (joint_command (ev_env ev) 1 vp vy n)])
    else
      Some (set_sent_disable_msg true (integrate (ev_env ev) 0 vp vy n),
            [PubCmdVel twist;
             PubJointState (joint_command (ev_env ev) 0 vp vy n)]).
Proof using Hst Hen Hp Hw.
  intros Hmode Htw. rewrite (callback_enabled _ _ _ st) by done.
  unfold sendCmdVelMsg. exec. rewrite Hmode. simpl.
  destruct (publish_stamped_twist_ cfg); exec; rewrite Htw; simpl;
    rewrite (fillJointStateMsg_eq _ _ _ _ _ vp vy) by done; reflexivity.
Qed.

Context (x y : float).
Context (Hmode : control_mode_ cfg ≠ "manual_control").
Context (Hx : chassis_val cfg (ev_joy ev) (profile st) "x" = Some x).
Context (Hy : chassis_val cfg (ev_joy ev) (profile st) "y" = Some y).

Lemma callback_goal_deadzone :
  in_deadzone x y = true →
  callback cfg ev n
  = Some (set_sent_disable_msg true (integrate (ev_env ev) 0 vp vy n),
          [PubJointState (joint_command (ev_env ev) 0 vp vy n)]).
Proof using Hst Hen Hp Hw Hmode Hx Hy.
  intros Hd. rewrite (callback_enabled _ _ _ st) by done.
  apply String.eqb_neq in Hmode.
  unfold sendCmdVelMsg. exec. rewrite Hmode.
  rewrite (sendGoalPoseAction_deadzone _ _ _ x y) by done.
  rewrite (fillJointStateMsg_eq _ _ _ _ _ vp vy) by done.
  reflexivity.
Qed.

Lemma callback_goal_tf_failure :
  in_deadzone x y = false →
  lookupTransform (ev_env ev) = None →
  callback cfg ev n
  = Some (set_sent_disable_msg true (integrate (ev_env ev) 1 vp vy n),
          [Warn; PubJointState (joint_command (ev_env ev) 1 vp vy n)]).
Proof using Hst Hen Hp Hw Hmode Hx Hy.
  intros Hd Htf. rewrite (callback_enabled _ _ _ st) by done.
  apply String.eqb_neq in Hmode.
  unfold sendCmdVelMsg. exec. rewrite Hmode.
  rewrite (sendGoalPoseAction_tf_failure _ _ _ x y) by done.
  rewrite (fillJointStateMsg_eq _ _ _ _ _ vp vy) by done.
  reflexivity.
Qed.

Lemma callback_goal_attempt transform :
  in_deadzone x y = false →
  lookupTransform (ev_env ev) = Some transform →
  let e := ev_env ev in
  let ref := throttle_reference e n 0 in
  let k := throttle_read n 0 in
  let t := now_reads e k in
  callback cfg ev n
  = if throttle_open (t - ref) then
      Some (set_sent_disable_msg true
              (integrate e (S k) vp vy (set_last_goal_time t n)),
            [SendGoal (mkGoal (now_reads e 0) x y transform);
             PubJointState
               (joint_command e (S k) vp vy (set_last_goal_time t n))])
    else
      Some (set_sent_disable_msg true
              (integrate e (S k) vp vy (set_last_goal_time ref n)),
            [PubJointState
               (joint_command e (S k) vp vy (set_last_goal_time ref n))]).
Proof using Hst Hen Hp Hw Hmode Hx Hy.
  intros Hd Htf e ref k t. rewrite (callback_enabled _ _ _ st) by done.
  apply String.eqb_neq in Hmode.
  unfold sendCmdVelMsg. exec. rewrite Hmode.
  rewrite (sendGoalPoseAction_attempt _ _ _ x y Hx Hy _ _ transform) by done.
  simpl. fold e ref k t.
  destruct (throttle_open (t - ref));
    rewrite (fillJointStateMsg_eq _ _ _ _ _ vp vy) by done; reflexivity.
Qed.

End EnabledCallback.

(** ** The disable edge *)

Lemma bind_Some {A B} (m : M A) (f : A → M B) e s r :
  (m ≫= f) e s = Some r →
  ∃ a s1, m e s = Some (a, s1) ∧ f a e s1 = Some r.
Proof.
  unfold mbind, M_bind. destruct (m e s) as [[a s1]|]; [eauto | discriminate].
Qed.

Lemma sendCmdVelMsg_arms cfg joy_msg which_map e s u s' :
  sendCmdVelMsg cfg joy_msg which_map e s = Some (u, s') →
  sent_disable_msg_ (node s') = true.
Proof.
  unfold sendCmdVelMsg. intros H.
  apply bind_Some in H as (_ & s1 & _ & H).
  apply bind_Some in H as (js & s2 & _ & H).
  apply bind_Some in H as (_ & s3 & _ & H).
  unfold modify in H. injection H as _ <-. reflexivity.
Qed.

Lemma callback_enabled_arms cfg ev n st n1 out1 :
  enable_state cfg (ev_joy ev) = Some st →
  enabled st = true →
  callback cfg ev n = Some (n1, out1) →
  sent_disable_msg_ n1 = true.
Proof.
  intros Hst Hen. rewrite (callback_enabled _ _ _ st) by done.
  destruct (sendCmdVelMsg _ _ _ _ _) as [[u s']|] eqn:Hs; [| discriminate].
  intros [= <- _]. eapply sendCmdVelMsg_arms, Hs.
Qed.

Lemma run_disabled_idle cfg evs n :
  Forall (λ ev, enable_state cfg (ev_joy ev) = Some Disabled) evs →
  sent_disable_msg_ n = false →
  run cfg evs n = Some (n, []).
Proof.
  intros Hall Hidle. induction Hall as [| ev evs Hev _ IH]; [reflexivity |].
  simpl. rewrite callback_disabled_idle by done. rewrite IH. reflexivity.
Qed.

Lemma velocity_commands_stop cfg e :
  velocity_commands (stop_outputs cfg e) = [zero_twist].
Proof.
  unfold stop_outputs.
  destruct (String.eqb _ _), (publish_stamped_twist_ cfg); reflexivity.
Qed.

(** C2. A processed enabled sample arms the disable-edge flag; the first
    disabled sample after it sends the stop sequence, whose only velocity
    command is the zero command, and clears the flag; the disabled samples
    that follow, however many, send nothing. *)
Theorem stop_command_once (cfg : Config) (ev : Event) (n n1 : Node)
    (out1 : list Output) (st : EnableState) :
  enable_state cfg (ev_joy ev) = Some st →
  enabled st = true →
  callback cfg ev n = Some (n1, out1) →
  sent_disable_msg_ n1 = true
  ∧ ∀ d ds,
      Forall (λ ev', enable_state cfg (ev_joy ev') = Some Disabled) (d :: ds) →
      let n2 := set_sent_disable_msg false n1 in
      callback cfg d n1 = Some (n2, stop_outputs cfg (ev_env d))
      ∧ velocity_commands (stop_outputs cfg (ev_env d)) = [zero_twist]
      ∧ run cfg ds n2 = Some (n2, [])
      ∧ run cfg (d :: ds) n1 = Some (n2, stop_outputs cfg (ev_env d)).
Proof.
  intros Hst Hen Hcb.
  assert (Harmed : sent_disable_msg_ n1 = true)
    by (eapply callback_enabled_arms; eauto).
  split; [exact Harmed |].
  intros d ds Hall n2. inversion Hall as [| ? ? Hd Hds]; subst.
  assert (Hrun : run cfg ds n2 = Some (n2, []))
    by (apply run_disabled_idle; done).
  repeat split.
  - by apply callback_disabled_armed.
  - apply velocity_commands_stop.
  - exact Hrun.
  - simpl. rewrite callback_disabled_armed by done. fold n2. rewrite Hrun.
    by rewrite app_nil_r.
Qed.

(** ** The enable state machine *)

Lemma pressed_vec_at bs i :
  pressed bs i = true ↔ ∃ b, vec_at bs i = Some b ∧ b ≠ 0.
Proof.
  unfold pressed, vec_at, size. split.
  - intros H. apply andb_prop in H as [H Hb]. apply andb_prop in H as [H0 H1].
    apply Z.leb_le in H0. destruct (Z.ltb_spec i 0); [lia |].
    destruct (bs !! Z.to_nat i) as [b|]; [| discriminate].
    exists b. split; [done |]. intros ->. discriminate.
  - intros (b & Hb & Hne). destruct (Z.ltb_spec i 0); [discriminate |].
    rewrite Hb. apply lookup_lt_Some in Hb.
    rewrite !andb_true_iff. repeat split.
    + by apply Z.leb_le.
    + apply Z.ltb_lt. lia.
    + by destruct (Z.eqb_spec b 0).
Qed.

Lemma turbo_cond_pressed cfg joy_msg :
  int_sized (buttons joy_msg) →
  turbo_cond cfg joy_msg
  = Some ((0 <=? enable_turbo_button_ cfg)
          && pressed (buttons joy_msg) (enable_turbo_button_ cfg)).
Proof.
  intros Hsz. unfold turbo_cond, pressed.
  rewrite static_cast_int_size by done.
  destruct (Z.leb_spec 0 (enable_turbo_button_ cfg)) as [H0|H0]; simpl; [| done].
  destruct (Z.ltb_spec (enable_turbo_button_ cfg) (size (buttons joy_msg)))
    as [H1|H1]; simpl; [| done].
  destruct (vec_at_in_range (buttons joy_msg) (enable_turbo_button_ cfg))
    as [b Hb]; [lia |].
  rewrite Hb. apply vec_at_Some in Hb as [_ ->]. reflexivity.
Qed.

Lemma enable_cond_pressed cfg joy_msg :
  int_sized (buttons joy_msg) →
  0 <= enable_button_ cfg →
  enable_cond cfg joy_msg
  = Some (negb (require_enable_button_ cfg)
          || pressed (buttons joy_msg) (enable_button_ cfg)).
Proof.
  intros Hsz H0. unfold enable_cond, pressed.
  rewrite static_cast_int_size by done.
  destruct (require_enable_button_ cfg); simpl; [| done].
  destruct (Z.leb_spec 0 (enable_button_ cfg)); [simpl | lia].
  destruct (Z.ltb_spec (enable_button_ cfg) (size (buttons joy_msg)))
    as [H1|H1]; simpl; [| done].
  destruct (vec_at_in_range (buttons joy_msg) (enable_button_ cfg))
    as [b Hb]; [lia |].
  rewrite Hb. apply vec_at_Some in Hb as [_ ->]. reflexivity.
Qed.

(** With an enable button that is a button index (or none required), the
    branch [joyCallback] takes is the classification of the sample. *)
Lemma enable_state_classify cfg joy_msg :
  int_sized (buttons joy_msg) →
  (require_enable_button_ cfg = true → 0 <= enable_button_ cfg) →
  enable_state cfg joy_msg = Some (classify cfg joy_msg).
Proof.
  intros Hsz He. unfold enable_state, classify.
  rewrite turbo_cond_pressed by done. simpl.
  destruct (_ && pressed _ (enable_turbo_button_ cfg)); [done |].
  destruct (require_enable_button_ cfg) eqn:Hreq.
  - rewrite enable_cond_pressed by auto. rewrite Hreq. simpl.
    by destruct (pressed _ _).
  - unfold enable_cond. rewrite Hreq. reflexivity.
Qed.

(** Turbo wins whatever the enable button is, even an invalid one. *)
Lemma enable_state_turbo cfg joy_msg :
  int_sized (buttons joy_msg) →
  0 <= enable_turbo_button_ cfg →
  pressed (buttons joy_msg) (enable_turbo_button_ cfg) = true →
  enable_state cfg joy_msg = Some Turbo.
Proof.
  intros Hsz H0 Hp. unfold enable_state.
  rewrite turbo_cond_pressed by done. rewrite Hp.
  destruct (Z.leb_spec 0 (enable_turbo_button_ cfg)); [done | lia].
Qed.

(** A required enable button with a negative index, turbo aside: the
    callback reads [buttons[enable_button_]] out of range. *)
Lemma enable_state_negative_enable cfg joy_msg :
  turbo_cond cfg joy_msg = Some false →
  require_enable_button_ cfg = true →
  enable_button_ cfg < 0 →
  enable_button_ cfg < static_cast_int (size (buttons joy_msg)) →
  enable_state cfg joy_msg = None.
Proof.
  intros Ht Hreq Hneg Hlt. unfold enable_state, enable_cond.
  rewrite Ht, Hreq. simpl.
  destruct (Z.ltb_spec (enable_button_ cfg)
              (static_cast_int (size (buttons joy_msg)))); [| lia].
  unfold vec_at. destruct (Z.ltb_spec (enable_button_ cfg) 0); [done | lia].
Qed.

(** C4, at the failing configuration: with [enable_button] set to -1 and a
    sample whose buttons are all released, the classification is Disabled
    while the callback reads [buttons[-1]], which is undefined. *)
Theorem negative_enable_button_undefined :
  classify negative_enable_config released_joy = Disabled
  ∧ enable_state negative_enable_config released_joy = None
  ∧ ∀ e s, joyCallback negative_enable_config released_joy e s = None.
Proof.
  assert (H : enable_state negative_enable_config released_joy = None)
    by (vm_compute; reflexivity).
  split; [vm_compute; reflexivity |].
  split; [exact H |].
  intros e s. rewrite joyCallback_dispatch, H. reflexivity.
Qed.

(** ** Double arithmetic of the two timed steps *)

(** *** Binary digits *)

Lemma digits2_pos_bounds p :
  2 ^ (Zpos (digits2_pos p) - 1) <= Zpos p < 2 ^ Zpos (digits2_pos p).
Proof.
  induction p as [p IH | p IH |]; simpl digits2_pos.
  - rewrite Pos2Z.inj_succ.
    replace (Z.succ (Zpos (digits2_pos p)) - 1)
      with (Z.succ (Zpos (digits2_pos p) - 1)) by lia.
    rewrite !Z.pow_succ_r by lia. lia.
  - rewrite Pos2Z.inj_succ.
    replace (Z.succ (Zpos (digits2_pos p)) - 1)
      with (Z.succ (Zpos (digits2_pos p) - 1)) by lia.
    rewrite !Z.pow_succ_r by lia. lia.
  - simpl. lia.
Qed.

Lemma digits2_pos_le p n :
  0 <= n → Zpos p < 2 ^ n → Zpos (digits2_pos p) <= n.
Proof.
  intros Hn Hp. destruct (digits2_pos_bounds p) as [Hlo _].
  destruct (Z.le_gt_cases (Zpos (digits2_pos p)) n) as [| Hgt]; [done |].
  assert (2 ^ n <= 2 ^ (Zpos (digits2_pos p) - 1))
    by (apply Z.pow_le_mono_r; lia).
  lia.
Qed.

Lemma digits2_pos_ge p n :
  2 ^ (n - 1) <= Zpos p → n <= Zpos (digits2_pos p).
Proof.
  intros Hp. destruct (digits2_pos_bounds p) as [_ Hhi].
  destruct (Z.le_gt_cases n (Zpos (digits2_pos p))) as [| Hgt]; [done |].
  assert (2 ^ Zpos (digits2_pos p) <= 2 ^ (n - 1))
    by (apply Z.pow_le_mono_r; lia).
  lia.
Qed.

Lemma Pos_iter_xO p k : Zpos (Pos.iter xO p k) = Zpos p * 2 ^ Zpos k.
Proof.
  induction k as [| k IH] using Pos.peano_ind.
  - simpl. lia.
  - rewrite Pos.iter_succ, Pos2Z.inj_xO, IH, Pos2Z.inj_succ.
    rewrite Z.pow_succ_r by lia. lia.
Qed.

(** *** Rounding to nearest *)

Lemma shr_m_of_loc m l : shr_m (shr_record_of_loc m l) = m.
Proof. destruct l as [| []]; reflexivity. Qed.

Lemma round_nearest_even_bounds m l :
  m <= round_nearest_even m l <= m + 1.
Proof.
  unfold round_nearest_even.
  destruct l as [| []]; try destruct (Z.even m); lia.
Qed.

Lemma shr_1_half mrs :
  0 < shr_m mrs → 2 * shr_m (shr_1 mrs) <= shr_m mrs <= 2 * shr_m (shr_1 mrs) + 1.
Proof.
  destruct mrs as [m r s]. simpl. intros Hm.
  destruct m as [| [p | p |] | p]; simpl; lia.
Qed.

Lemma shr_fexp_spec m e l :
  0 < m < 2 ^ 54 → -1074 <= e →
  (m < 2 ^ 53
   ∧ shr_fexp prec emax m e l = (shr_record_of_loc m l, e))
  ∨ (2 ^ 53 <= m
     ∧ shr_fexp prec emax m e l = (shr_1 (shr_record_of_loc m l), e + 1)).
Proof.
  intros [Hpos Hm] He. destruct m as [| p | p]; try lia.
  unfold shr_fexp, shr, fexp, Zdigits2, SpecFloat.emin, prec, emax.
  destruct (Z.lt_ge_cases (Zpos p) (2 ^ 53)) as [Hlt | Hge].
  - left. split; [done |].
    pose proof (digits2_pos_le p 53 ltac:(lia) Hlt) as Hd.
    destruct (Z.max _ _ - e) eqn:Hn; try reflexivity. lia.
  - right. split; [done |].
    pose proof (digits2_pos_le p 54 ltac:(lia) Hm) as Hd.
    pose proof (digits2_pos_ge p 54 Hge) as Hd'.
    replace (Z.max (Zpos (digits2_pos p) + e - 53) (3 - 1024 - 53) - e)
      with 1 by lia.
    reflexivity.
Qed.

(** The exponent of a rounded result: a mantissa below [2^K - 2] with
    [53 <= K] rounds to exponent at most [e + K - 53]. *)
Lemma binary_round_aux_exponent s m e l K :
  0 < m < 2 ^ 54 → m < 2 ^ K - 2 → 53 <= K →
  -1074 <= e → e + K - 53 <= 971 →
  match binary_round_aux prec emax s m e l with
  | S754_finite _ _ e2 => e2 <= e + K - 53
  | S754_infinity _ => False
  | _ => True
  end.
Proof.
  intros Hm HK H53 He Hmax. unfold binary_round_aux.
  assert (HK54 : 2 ^ 53 - 1 <= m → 54 <= K).
  { intros Hge. destruct (Z.le_gt_cases 54 K); [done |].
    assert (2 ^ K <= 2 ^ 53) by (apply Z.pow_le_mono_r; lia). lia. }
  assert (HK55 : 2 ^ 54 - 2 <= m → 55 <= K).
  { intros Hge. destruct (Z.le_gt_cases 55 K); [done |].
    assert (2 ^ K <= 2 ^ 54) by (apply Z.pow_le_mono_r; lia). lia. }
  destruct (shr_fexp_spec m e l Hm He) as [[Hlt ->] | [Hge ->]].
  - rewrite shr_m_of_loc.
    set (mr := round_nearest_even m _).
    assert (Hmr : m <= mr <= m + 1) by apply round_nearest_even_bounds.
    destruct (shr_fexp_spec mr e loc_Exact ltac:(lia) He)
      as [[Hlt2 ->] | [Hge2 ->]].
    + simpl shr_m. destruct mr as [| q | q]; try lia.
      destruct (Z.leb_spec e (emax - prec)); [lia |].
      unfold emax, prec in *. lia.
    + pose proof (shr_1_half (shr_record_of_loc mr loc_Exact)) as Hh.
      simpl shr_m in Hh at 1 3 4. specialize (Hh ltac:(lia)).
      set (m2 := shr_m (shr_1 (shr_record_of_loc mr loc_Exact))) in *.
      destruct m2 as [| q | q]; try lia.
      destruct (Z.leb_spec (e + 1) (emax - prec)).
      * specialize (HK54 ltac:(lia)). lia.
      * specialize (HK54 ltac:(lia)). unfold emax, prec in *. lia.
  - pose proof (shr_1_half (shr_record_of_loc m l)) as Hh.
    rewrite shr_m_of_loc in Hh. specialize (Hh ltac:(lia)).
    set (m1 := shr_m (shr_1 (shr_record_of_loc m l))) in *.
    set (mr := round_nearest_even m1 _).
    assert (Hmr : m1 <= mr <= m1 + 1) by apply round_nearest_even_bounds.
    specialize (HK54 ltac:(lia)).
    destruct (shr_fexp_spec mr (e + 1) loc_Exact ltac:(lia) ltac:(lia))
      as [[Hlt2 ->] | [Hge2 ->]].
    + simpl shr_m. destruct mr as [| q | q]; try lia.
      destruct (Z.leb_spec (e + 1) (emax - prec)); [lia |].
      unfold emax, prec in *. lia.
    + pose proof (shr_1_half (shr_record_of_loc mr loc_Exact)) as Hh2.
      simpl shr_m in Hh2 at 1 3 4. specialize (Hh2 ltac:(lia)).
      specialize (HK55 ltac:(lia)).
      set (m2 := shr_m (shr_1 (shr_record_of_loc mr loc_Exact))) in *.
      destruct m2 as [| q | q]; try lia.
      destruct (Z.leb_spec (e + 1 + 1) (emax - prec)); [lia |].
      unfold emax, prec in *. lia.
Qed.

Lemma binary_round_aux_exact s m e :
  Zpos (digits2_pos m) = 53 → -1074 <= e <= 971 →
  binary_round_aux prec emax s (Zpos m) e loc_Exact = S754_finite s m e.
Proof.
  intros Hd He. unfold binary_round_aux.
  destruct (digits2_pos_bounds m) as [_ Hhi]. rewrite Hd in Hhi.
  destruct (shr_fexp_spec (Zpos m) e loc_Exact ltac:(lia) ltac:(lia))
    as [[_ ->] | [Hge _]]; [| lia].
  simpl. 
  destruct (shr_fexp_spec (Zpos m) e loc_Exact ltac:(lia) ltac:(lia))
    as [[_ ->] | [Hge _]]; [| lia].
  simpl. destruct (Z.leb_spec e (emax - prec)); [done |].
  unfold emax, prec in *. lia.
Qed.

(** A positive integer below [2^53] converts exactly, to a 53-digit
    mantissa. *)
Lemma binary_normalize_exact p :
  Zpos p < 2 ^ 53 →
  ∃ M,
    binary_normalize prec emax (Zpos p) 0 false
    = S754_finite false M (Zpos (digits2_pos p) - 53)
    ∧ Zpos M * 2 ^ Zpos (digits2_pos p) = Zpos p * 2 ^ 53
    ∧ Zpos (digits2_pos M) = 53.
Proof.
  intros Hp. unfold binary_normalize, binary_round, shl_align.
  pose proof (digits2_pos_le p 53 ltac:(lia) Hp) as HD.
  destruct (digits2_pos_bounds p) as [Hlo Hhi].
  set (D := Zpos (digits2_pos p)) in *.
  assert (HD1 : 1 <= D) by (unfold D; lia).
  unfold fexp, SpecFloat.emin, prec, emax.
  replace (Z.max (D + 0 - 53) (3 - 1024 - 53)) with (D - 53) by lia.
  assert (Hpow : 2 ^ 53 = 2 ^ (53 - D) * 2 ^ D)
    by (rewrite <- Z.pow_add_r by lia; f_equal; lia).
  assert (Hpow1 : 2 ^ D = 2 * 2 ^ (D - 1))
    by (rewrite <- Z.pow_succ_r by lia; f_equal; lia).
  assert (Hpos : 0 < 2 ^ (53 - D)) by (apply Z.pow_pos_nonneg; lia).
  destruct (D - 53 - 0) as [| d | d] eqn:Hs; [| lia |].
  - exists p.
    assert (D = 53) by lia.
    rewrite binary_round_aux_exact by (fold D; lia).
    replace (D - 53) with 0 by lia.
    repeat split; [| fold D; lia]. fold D. replace D with 53 by lia. lia.
  - exists (Pos.iter xO p d).
    assert (Hd : Zpos d = 53 - D) by lia.
    assert (HM : Zpos (Pos.iter xO p d) = Zpos p * 2 ^ (53 - D))
      by (rewrite Pos_iter_xO, Hd; reflexivity).
    assert (Hdig : Zpos (digits2_pos (Pos.iter xO p d)) = 53).
    { apply Z.le_antisymm.
      - apply digits2_pos_le; [lia |]. rewrite HM, Hpow. nia.
      - apply digits2_pos_ge. rewrite HM.
        replace (2 ^ (53 - 1)) with (2 ^ (53 - D) * 2 ^ (D - 1)); [nia |].
        rewrite <- Z.pow_add_r by lia. f_equal. lia. }
    rewrite binary_round_aux_exact by (done || lia).
    repeat split; [| done]. rewrite HM, Hpow. lia.
Qed.

Lemma Prim2SF_1e9 : Prim2SF 1e9 = S754_finite false 8388608000000000 (-23).
Proof. vm_compute. reflexivity. Qed.

Lemma Prim2SF_quarter : Prim2SF 0.25 = S754_finite false 4503599627370496 (-54).
Proof. vm_compute. reflexivity. Qed.

Lemma SFleb_quarter_small x :
  match x with
  | S754_finite _ _ e => e <= -55
  | S754_infinity _ => False
  | _ => True
  end →
  SFleb (S754_finite false 4503599627370496 (-54)) x = false.
Proof.
  destruct x as [s | s | | s m e]; intros H; try done.
  unfold SFleb, SFcompare. destruct s; [done |].
  replace (-54 ?= e) with Gt; [done |].
  symmetry. apply Z.compare_gt_iff. lia.
Qed.

(** The quotient of a positive count below 250 000 000 by [1e9] rounds to
    an exponent of at most -55, that is, below 0.25. *)
Lemma throttle_test_positive p :
  Zpos p < 250000000 →
  SFleb (S754_finite false 4503599627370496 (-54))
    (SF64div (binary_normalize prec emax (Zpos p) 0 false)
       (S754_finite false 8388608000000000 (-23))) = false.
Proof.
  intros Hp.
  destruct (binary_normalize_exact p ltac:(lia)) as (M & -> & HM & HdM).
  pose proof (digits2_pos_le p 28 ltac:(lia) ltac:(lia)) as HD.
  destruct (digits2_pos_bounds M) as [_ HMhi]. rewrite HdM in HMhi.
  set (D := Zpos (digits2_pos p)) in *.
  assert (HD1 : 1 <= D) by (unfold D; lia).
  apply SFleb_quarter_small.
  unfold SF64div, SFdiv, SFdiv_core_binary.
  change (Zdigits2 (Zpos M)) with (Zpos (digits2_pos M)). rewrite HdM.
  change (Zdigits2 (Zpos 8388608000000000)) with 53.
  unfold fexp, SpecFloat.emin, prec, emax.
  replace (Z.min (Z.max (53 + (D - 53) - (53 + -23) - 53) (3 - 1024 - 53))
             (D - 53 - -23)) with (D - 83) by lia.
  replace (D - 53 - -23 - (D - 83)) with 53 by lia.
  rewrite Z.shiftl_mul_pow2 by lia.
  pose proof (Z_div_mod (Zpos M * 2 ^ 53) 8388608000000000 ltac:(lia)) as Hdiv.
  destruct (Z.div_eucl (Zpos M * 2 ^ 53) 8388608000000000) as [q r].
  destruct Hdiv as [Hq Hr].
  set (Q := 2 ^ (81 - D)).
  assert (HQ : 2 ^ 53 <= Q) by (apply Z.pow_le_mono_r; lia).
  assert (HQD : Q * 2 ^ D = 2 ^ 81)
    by (unfold Q; rewrite <- Z.pow_add_r by lia; f_equal; lia).
  assert (HDpos : 0 < 2 ^ D) by (apply Z.pow_pos_nonneg; lia).
  assert (Hm' : Zpos M * 2 ^ 53 = Zpos p * Q * 33554432).
  { apply (Z.mul_reg_r _ _ (2 ^ D)); [lia |].
    transitivity (Zpos M * 2 ^ D * 2 ^ 53); [lia |].
    rewrite HM.
    transitivity (Zpos p * (Q * 2 ^ D) * 33554432); [| lia].
    rewrite HQD. lia. }
  assert (HpQ : Zpos p * Q <= 249999999 * Q) by nia.
  assert (HpQ1 : Q <= Zpos p * Q) by nia.
  pose proof (binary_round_aux_exponent (xorb false false) q (D - 83)
                (new_location 8388608000000000 r) (81 - D)) as Hexp.
  replace (D - 83 + (81 - D) - 53) with (-55) in Hexp by lia.
  apply Hexp; fold Q; lia.
Qed.

Lemma throttle_test_closed i :
  Uint63.to_Z i < 250000000 → throttle_test i = false.
Proof.
  intros Hi. unfold throttle_test.
  rewrite FloatAxioms.leb_spec, FloatAxioms.div_spec, of_uint63_spec.
  rewrite Prim2SF_1e9, Prim2SF_quarter.
  pose proof (to_Z_bounded i) as Hb.
  destruct (Uint63.to_Z i) as [| p | p]; [reflexivity | | lia].
  by apply throttle_test_positive.
Qed.

(** A mantissa of 53 or 54 digits rounds to a normal number: the result
    has a mantissa of at least [2^52], and its exponent is at least [e],
    one more when the mantissa had 54 digits. *)
Lemma binary_round_aux_normal s m e l :
  2 ^ 52 <= m < 2 ^ 54 → -1074 <= e → e + 2 <= 971 →
  ∃ m' e',
    binary_round_aux prec emax s m e l = S754_finite s m' e'
    ∧ 2 ^ 52 <= Zpos m'
    ∧ e <= e'
    ∧ (2 ^ 53 <= m → e + 1 <= e').
Proof.
  intros Hm He Hmax. unfold binary_round_aux.
  destruct (shr_fexp_spec m e l ltac:(lia) He) as [[Hlt ->] | [Hge ->]].
  - rewrite shr_m_of_loc.
    set (mr := round_nearest_even m _).
    assert (Hmr : m <= mr <= m + 1) by apply round_nearest_even_bounds.
    destruct (shr_fexp_spec mr e loc_Exact ltac:(lia) He)
      as [[Hlt2 ->] | [Hge2 ->]].
    + simpl shr_m. destruct mr as [| q | q]; try lia.
      destruct (Z.leb_spec e (emax - prec));
        [| unfold emax, prec in *; lia].
      exists q, e. repeat split; lia.
    + pose proof (shr_1_half (shr_record_of_loc mr loc_Exact)) as Hh.
      simpl shr_m in Hh at 1 3 4. specialize (Hh ltac:(lia)).
      set (m2 := shr_m (shr_1 (shr_record_of_loc mr loc_Exact))) in *.
      destruct m2 as [| q | q]; try lia.
      destruct (Z.leb_spec (e + 1) (emax - prec));
        [| unfold emax, prec in *; lia].
      exists q, (e + 1). repeat split; lia.
  - pose proof (shr_1_half (shr_record_of_loc m l)) as Hh.
    rewrite shr_m_of_loc in Hh. specialize (Hh ltac:(lia)).
    set (m1 := shr_m (shr_1 (shr_record_of_loc m l))) in *.
    set (mr := round_nearest_even m1 _).
    assert (Hmr : m1 <= mr <= m1 + 1) by apply round_nearest_even_bounds.
    destruct (shr_fexp_spec mr (e + 1) loc_Exact ltac:(lia) ltac:(lia))
      as [[Hlt2 ->] | [Hge2 ->]].
    + simpl shr_m. destruct mr as [| q | q]; try lia.
      destruct (Z.leb_spec (e + 1) (emax - prec));
        [| unfold emax, prec in *; lia].
      exists q, (e + 1). repeat split; lia.
    + pose proof (shr_1_half (shr_record_of_loc mr loc_Exact)) as Hh2.
      simpl shr_m in Hh2 at 1 3 4. specialize (Hh2 ltac:(lia)).
      set (m2 := shr_m (shr_1 (shr_record_of_loc mr loc_Exact))) in *.
      destruct m2 as [| q | q]; try lia.
      destruct (Z.leb_spec (e + 1 + 1) (emax - prec));
        [| unfold emax, prec in *; lia].
      exists q, (e + 1 + 1). repeat split; lia.
Qed.

Lemma SFleb_quarter_large m e :
  2 ^ 52 <= Zpos m → -54 <= e →
  SFleb (S754_finite false 4503599627370496 (-54)) (S754_finite false m e)
  = true.
Proof.
  intros Hm He. unfold SFleb, SFcompare.
  destruct (Z.compare_spec (-54) e) as [_ | _ | Hgt]; [| done | lia].
  change (Pos.compare_cont Eq 4503599627370496 m)
    with (Z.compare 4503599627370496 (Zpos m)).
  destruct (Z.compare_spec 4503599627370496 (Zpos m)) as [_ | _ | Hlt];
    [done | done | lia].
Qed.

(** The quotient of a count from 250 000 000 up to [2^53] by [1e9] rounds
    to at least 0.25. *)
Lemma throttle_test_large p :
  250000000 <= Zpos p < 2 ^ 53 →
  SFleb (S754_finite false 4503599627370496 (-54))
    (SF64div (binary_normalize prec emax (Zpos p) 0 false)
       (S754_finite false 8388608000000000 (-23))) = true.
Proof.
  intros Hp.
  destruct (binary_normalize_exact p ltac:(lia)) as (M & -> & HM & HdM).
  pose proof (digits2_pos_le p 53 ltac:(lia) ltac:(lia)) as HD.
  pose proof (digits2_pos_ge p 28 ltac:(lia)) as HD28.
  destruct (digits2_pos_bounds M) as [HMlo HMhi]. rewrite HdM in HMlo, HMhi.
  destruct (digits2_pos_bounds p) as [Hplo Hphi].
  set (D := Zpos (digits2_pos p)) in *.
  unfold SF64div, SFdiv, SFdiv_core_binary.
  change (Zdigits2 (Zpos M)) with (Zpos (digits2_pos M)). rewrite HdM.
  change (Zdigits2 (Zpos 8388608000000000)) with 53.
  unfold fexp, SpecFloat.emin, prec, emax.
  replace (Z.min (Z.max (53 + (D - 53) - (53 + -23) - 53) (3 - 1024 - 53))
             (D - 53 - -23)) with (D - 83) by lia.
  replace (D - 53 - -23 - (D - 83)) with 53 by lia.
  rewrite Z.shiftl_mul_pow2 by lia.
  pose proof (Z_div_mod (Zpos M * 2 ^ 53) 8388608000000000 ltac:(lia)) as Hdiv.
  destruct (Z.div_eucl (Zpos M * 2 ^ 53) 8388608000000000) as [q r].
  destruct Hdiv as [Hq Hr].
  destruct (binary_round_aux_normal (xorb false false) q (D - 83)
              (new_location 8388608000000000 r))
    as (m' & e' & Hround & Hm' & He' & He1); [lia | lia | lia |].
  unfold prec, emax in Hround. rewrite Hround.
  apply SFleb_quarter_large; [done |].
  destruct (Z.le_gt_cases 29 D) as [| HD']; [lia |].
  assert (D = 28) by lia.
  assert (HM28 : Zpos M = Zpos p * 33554432).
  { apply (Z.mul_reg_r _ _ (2 ^ D)); [lia |]. rewrite HM.
    replace D with 28 by lia. lia. }
  specialize (He1 ltac:(lia)). lia.
Qed.

Lemma throttle_test_open i :
  250000000 <= Uint63.to_Z i < 2 ^ 53 → throttle_test i = true.
Proof.
  intros Hi. unfold throttle_test.
  rewrite FloatAxioms.leb_spec, FloatAxioms.div_spec, of_uint63_spec.
  rewrite Prim2SF_1e9, Prim2SF_quarter.
  destruct (Uint63.to_Z i) as [| p | p]; [lia | | lia].
  by apply throttle_test_large.
Qed.

(** *** Signs *)

Lemma binary_round_aux_signed s m e l :
  signed s (binary_round_aux prec emax s m e l).
Proof.
  unfold binary_round_aux.
  destruct (shr_fexp prec emax m e l) as [mrs' e'].
  destruct (shr_fexp prec emax _ e' loc_Exact) as [mrs'' e''].
  destruct (shr_m mrs''); simpl; [done | | done].
  destruct (e'' <=? emax - prec); done.
Qed.

Lemma of_uint63_signed i : signed false (Prim2SF (of_uint63 i)).
Proof.
  rewrite of_uint63_spec. unfold binary_normalize.
  pose proof (to_Z_bounded i) as Hb.
  destruct (Uint63.to_Z i) as [| p | p]; [done | | lia].
  unfold binary_round.
  destruct (shl_align _ _ _) as [mz ez]. apply binary_round_aux_signed.
Qed.

Lemma throttle_closed_negative d : d < 0 → throttle_open d = false.
Proof.
  intros Hd. unfold throttle_open, Duration_seconds, double_of_int64.
  destruct (Z.ltb_spec d 0); [| lia].
  rewrite FloatAxioms.leb_spec, FloatAxioms.div_spec, FloatAxioms.opp_spec.
  pose proof (of_uint63_signed (Uint63.of_Z (- d))) as Hs.
  replace (Prim2SF 1e9) with (S754_finite false 8388608000000000 (-23)) 
    by (vm_compute; reflexivity).
  replace (Prim2SF 0.25) with (S754_finite false 4503599627370496 (-54)) 
    by (vm_compute; reflexivity).
  destruct (Prim2SF (of_uint63 (Uint63.of_Z (- d)))) as [s | s | | s m e];
    simpl in Hs; subst; try reflexivity.
  unfold SF64div, SFdiv, SFopp.
  match goal with |- context [SFdiv_core_binary ?a ?b ?c ?d ?e ?f] =>
    destruct (SFdiv_core_binary a b c d e f) as [[mz ez] lz] end.
  pose proof (binary_round_aux_signed (xorb (negb false) false) mz ez lz) as Hr.
  destruct (binary_round_aux _ _ _ _ _ _) as [s | s | | s m' e'];
    simpl in Hr; subst; reflexivity.
Qed.

Lemma throttle_open_test d :
  0 <= d → throttle_open d = throttle_test (Uint63.of_Z d).
Proof.
  intros Hd. unfold throttle_open, Duration_seconds, double_of_int64.
  destruct (Z.ltb_spec d 0); [lia | reflexivity].
Qed.

(** A submission needs a quarter of a second on the clock. *)
Lemma throttle_open_elapsed d :
  throttle_open d = true → 250000000 <= d.
Proof.
  intros Hopen.
  destruct (Z.lt_ge_cases d 0) as [Hneg | Hpos].
  - rewrite throttle_closed_negative in Hopen by done. discriminate.
  - destruct (Z.lt_ge_cases d 250000000) as [Hlt | Hge]; [| done].
    rewrite throttle_open_test, throttle_test_closed in Hopen;
      [discriminate | | done].
    rewrite of_Z_spec, Z.mod_small; [done |].
    change wB with (2 ^ 63). lia.
Qed.





Lemma throttle_closed d : d < 250000000 → throttle_open d = false.
Proof.
  intros Hd. destruct (throttle_open d) eqn:H; [| reflexivity].
  apply throttle_open_elapsed in H. lia.
Qed.

(** On elapsed times below [2^53] ns the throttle test is exactly
    "at least a quarter of a second". *)
Lemma throttle_open_iff d :
  d < 2 ^ 53 → throttle_open d = true ↔ 250000000 <= d.
Proof.
  intros Hd. split; [apply throttle_open_elapsed |].
  intros Hge. rewrite throttle_open_test by lia.
  apply throttle_test_open.
  rewrite of_Z_spec, Z.mod_small; [lia |].
  change wB with (2 ^ 63). lia.
Qed.

(** ** The callback always returns *)

Section Totality.

Context (cfg : Config) (Hwf : wf_config cfg).

Lemma chassis_val_defined joy_msg which_map f :
  ∃ v, chassis_val cfg joy_msg which_map f = Some v.
Proof using Hwf.
  apply getVal_defined. intros idx H. by apply (proj1 Hwf f).
Qed.

Lemma gimbal_val_defined joy_msg which_map f :
  ∃ v, gimbal_val cfg joy_msg which_map f = Some v.
Proof using Hwf.
  apply getVal_defined. intros idx H. by apply (proj1 (proj2 Hwf) f).
Qed.

Lemma fillCmdVelMsg_defined joy_msg which_map :
  ∃ twist, fillCmdVelMsg cfg joy_msg which_map = Some twist.
Proof using Hwf.
  destruct (chassis_val_defined joy_msg which_map "x") as [lx Hx].
  destruct (chassis_val_defined joy_msg which_map "y") as [ly Hy].
  destruct (chassis_val_defined joy_msg which_map "z") as [lz Hz].
  destruct (gimbal_val_defined joy_msg which_map "roll") as [r Hr].
  destruct (gimbal_val_defined joy_msg which_map "pitch") as [p Hp].
  destruct (gimbal_val_defined joy_msg which_map "yaw") as [w Hw].
  rewrite (fillCmdVelMsg_eq _ _ _ lx ly lz r p w) by done. eauto.
Qed.

Lemma enable_state_defined joy_msg :
  ∃ st, enable_state cfg joy_msg = Some st.
Proof using Hwf.
  assert (Ht : ∃ b, turbo_cond cfg joy_msg = Some b).
  { unfold turbo_cond.
    destruct (Z.leb_spec 0 (enable_turbo_button_ cfg)); simpl; [| eauto].
    destruct (Z.ltb_spec (enable_turbo_button_ cfg)
                (static_cast_int (size (buttons joy_msg)))); [| eauto].
    destruct (vec_at_below_cast (buttons joy_msg) (enable_turbo_button_ cfg))
      as [b ->]; [lia |]. simpl. eauto. }
  assert (He : ∃ b, enable_cond cfg joy_msg = Some b).
  { unfold enable_cond.
    destruct (require_enable_button_ cfg) eqn:Hreq; simpl; [| eauto].
    destruct (Z.ltb_spec (enable_button_ cfg)
                (static_cast_int (size (buttons joy_msg)))); [| eauto].
    pose proof (proj2 (proj2 Hwf) Hreq).
    destruct (vec_at_below_cast (buttons joy_msg) (enable_button_ cfg))
      as [b ->]; [lia |]. simpl. eauto. }
  destruct Ht as [t Ht], He as [b He]. unfold enable_state.
  rewrite Ht. simpl. destruct t; [eauto |]. rewrite He. simpl. eauto.
Qed.

(** Under a well-formed configuration every callback returns, whatever
    the sample, the clock and the transform buffer do. *)
Lemma callback_total ev n :
  ∃ n' out, callback cfg ev n = Some (n', out).
Proof using Hwf.
  destruct (enable_state_defined (ev_joy ev)) as [st Hst].
  destruct (enabled st) eqn:Hen.
  - destruct (gimbal_val_defined (ev_joy ev) (profile st) "pitch") as [vp Hp].
    destruct (gimbal_val_defined (ev_joy ev) (profile st) "yaw") as [vy Hy].
    destruct (String.eqb_spec (control_mode_ cfg) "manual_control") as [Hm | Hm].
    + destruct (fillCmdVelMsg_defined (ev_joy ev) (profile st)) as [tw Htw].
      rewrite (callback_manual _ _ _ st vp vy) with (twist := tw) by done.
      destruct (publish_stamped_twist_ cfg); eauto.
    + destruct (chassis_val_defined (ev_joy ev) (profile st) "x") as [x Hx].
      destruct (chassis_val_defined (ev_joy ev) (profile st) "y") as [y Hy'].
      destruct (in_deadzone x y) eqn:Hd.
      * rewrite (callback_goal_deadzone _ _ _ st vp vy) with (x := x) (y := y)
          by done. eauto.
      * destruct (lookupTransform (ev_env ev)) as [tf |] eqn:Htf.
        -- rewrite (callback_goal_attempt _ _ _ st vp vy) with (x := x) (y := y)
             (transform := tf) by done.
           simpl. destruct (throttle_open _); eauto.
        -- rewrite (callback_goal_tf_failure _ _ _ st vp vy) with (x := x) (y := y)
             by done. eauto.
  - destruct st; try discriminate.
    destruct (sent_disable_msg_ n) eqn:Ha.
    + rewrite callback_disabled_armed by done. eauto.
    + rewrite callback_disabled_idle by done. eauto.
Qed.

Lemma run_total evs : ∀ n, ∃ n' out, run cfg evs n = Some (n', out).
Proof using Hwf.
  induction evs as [| ev evs IH]; intros n; simpl; [eauto |].
  destruct (callback_total ev n) as (n1 & out1 & ->).
  destruct (IH n1) as (n2 & out2 & ->). eauto.
Qed.

End Totality.

(** ** Goal-directed mode *)

Lemma in_deadzone_true x y :
  in_deadzone x y = true ↔
  (abs x <=? 0.1)%float = true ∧ (abs y <=? 0.1)%float = true.
Proof. unfold in_deadzone. apply andb_true_iff. Qed.

(** C5. In goal-directed mode an enabled sample whose mapped chassis x and
    y both have magnitude at most 0.1 submits no goal and leaves the
    disable-edge flag set; the displacement (0.05, 0.05) is such a one. *)
Theorem deadzone_no_goal (cfg : Config) (ev : Event) (n : Node)
    (st : EnableState) (x y vp vy : float) :
  control_mode_ cfg ≠ "manual_control" →
  enable_state cfg (ev_joy ev) = Some st →
  enabled st = true →
  chassis_val cfg (ev_joy ev) (profile st) "x" = Some x →
  chassis_val cfg (ev_joy ev) (profile st) "y" = Some y →
  gimbal_val cfg (ev_joy ev) (profile st) "pitch" = Some vp →
  gimbal_val cfg (ev_joy ev) (profile st) "yaw" = Some vy →
  (abs x <=? 0.1)%float = true →
  (abs y <=? 0.1)%float = true →
  (∃ n' out,
     callback cfg ev n = Some (n', out)
     ∧ goals out = []
     ∧ sent_disable_msg_ n' = true)
  ∧ ((abs 0.05 <=? 0.1)%float = true).
Proof.
  intros Hmode Hst Hen Hx Hy Hp Hw Hdx Hdy. split; [| reflexivity].
  rewrite (callback_goal_deadzone cfg ev n st vp vy) with (x := x) (y := y)
    by (done || by apply in_deadzone_true).
  eexists _, _. split; [reflexivity |]. split; reflexivity.
Qed.

(** C6. In goal-directed mode, when the transform lookup fails for an
    enabled sample outside the deadzone, the callback still returns: it
    submits no goal, leaves the throttle timestamp as it was, reports the
    failure, sends the gimbal joint command of an ordinary integration
    step, and every later run of callbacks returns as well. *)
Theorem transform_failure_is_local (cfg : Config) (ev : Event) (n : Node)
    (st : EnableState) (x y vp vy : float) :
  wf_config cfg →
  control_mode_ cfg ≠ "manual_control" →
  enable_state cfg (ev_joy ev) = Some st →
  enabled st = true →
  chassis_val cfg (ev_joy ev) (profile st) "x" = Some x →
  chassis_val cfg (ev_joy ev) (profile st) "y" = Some y →
  gimbal_val cfg (ev_joy ev) (profile st) "pitch" = Some vp →
  gimbal_val cfg (ev_joy ev) (profile st) "yaw" = Some vy →
  in_deadzone x y = false →
  lookupTransform (ev_env ev) = None →
  ∃ n' out,
    callback cfg ev n = Some (n', out)
    ∧ goals out = []
    ∧ last_goal_time n' = last_goal_time n
    ∧ out = [Warn; PubJointState (joint_command (ev_env ev) 1 vp vy n)]
    ∧ n' = set_sent_disable_msg true (integrate (ev_env ev) 1 vp vy n)
    ∧ ∀ evs, ∃ n'' out', run cfg evs n' = Some (n'', out').
Proof.
  intros Hwf Hmode Hst Hen Hx Hy Hp Hw Hd Htf.
  rewrite (callback_goal_tf_failure cfg ev n st vp vy) with (x := x) (y := y)
    by done.
  eexists _, _. split; [reflexivity |].
  repeat split. intros evs. by apply run_total.
Qed.

(** C9. On a disable edge the callback sends the zero velocity command
    and leaves pitch, yaw, the integration baseline and the throttle
    timestamp as they were, in every mode; it first requests the
    cancellation of every goal sent before the current time exactly when
    the mode is "auto_control".  Goals are dispatched under every mode
    other than "manual_control": under the mode "idle" a goal is
    submitted, and the disable edge that follows requests no
    cancellation. *)
Theorem disable_edge_cancellation_by_mode :
  (∀ cfg ev n,
     enable_state cfg (ev_joy ev) = Some Disabled →
     sent_disable_msg_ n = true →
     ∃ n' stop,
       callback cfg ev n
       = Some (n', (if String.eqb (control_mode_ cfg) "auto_control"
                    then [CancelGoalsBefore (now_reads (ev_env ev) 0)]
                    else []) ++ [stop])
       ∧ twist_of stop = Some zero_twist
       ∧ gimbal_state n' = gimbal_state n
       ∧ last_goal_time n' = last_goal_time n)
  ∧ control_mode_ idle_config ≠ "manual_control"
  ∧ ∃ n1 out1 n2,
      run idle_config [drive_event 1000000000; drive_event 1300000000]
        fresh_node = Some (n1, out1)
      ∧ goals out1 = [mkGoal 1300000000 0.5 0.5 identity_transform]
      ∧ sent_disable_msg_ n1 = true
      ∧ enable_state idle_config (ev_joy (released_event 1400000000))
        = Some Disabled
      ∧ callback idle_config (released_event 1400000000) n1
        = Some (n2, [PubCmdVel zero_twist]).
Proof.
  split; [| split].
  - intros cfg ev n Hst Harmed. rewrite callback_disabled_armed by done.
    unfold stop_outputs.
    destruct (String.eqb (control_mode_ cfg) "auto_control"); simpl;
      (eexists _, _; split; [reflexivity |]; split; [| split; reflexivity]);
      by destruct (publish_stamped_twist_ cfg).
  - discriminate.
  - eexists _, _, _. split; [vm_compute; reflexivity |].
    split; [reflexivity |]. split; [reflexivity |]. split; [reflexivity |].
    vm_compute. reflexivity.
Qed.

(** ** The command composer *)

(** C8. For an enabled sample with active profile [profile st], the
    composed velocity command has linear x, y, z the mapped chassis values,
    angular y and x the mapped gimbal pitch and roll, and angular z the
    mapped gimbal yaw, negated exactly when [inverted_reverse_] is set and
    linear x is below zero; in manual mode it is the one velocity command
    the callback sends. *)
Theorem velocity_command_composition (cfg : Config) (ev : Event) (n : Node)
    (st : EnableState) (lx ly lz roll ptch yw : float) :
  enable_state cfg (ev_joy ev) = Some st →
  enabled st = true →
  chassis_val cfg (ev_joy ev) (profile st) "x" = Some lx →
  chassis_val cfg (ev_joy ev) (profile st) "y" = Some ly →
  chassis_val cfg (ev_joy ev) (profile st) "z" = Some lz →
  gimbal_val cfg (ev_joy ev) (profile st) "roll" = Some roll →
  gimbal_val cfg (ev_joy ev) (profile st) "pitch" = Some ptch →
  gimbal_val cfg (ev_joy ev) (profile st) "yaw" = Some yw →
  ∃ twist,
    fillCmdVelMsg cfg (ev_joy ev) (profile st) = Some twist
    ∧ linear_x twist = lx ∧ linear_y twist = ly ∧ linear_z twist = lz
    ∧ angular_y twist = ptch ∧ angular_x twist = roll
    ∧ angular_z twist
      = (if (lx <? 0)%float && inverted_reverse_ cfg then (- yw)%float else yw)
    ∧ (control_mode_ cfg = "manual_control" →
       ∃ n' out, callback cfg ev n = Some (n', out)
                 ∧ velocity_commands out = [twist])
    ∧ (inverted_reverse_ cfg = true → lx = (-0.5)%float → yw = 0.3%float →
       angular_z twist = (-0.3)%float)
    ∧ (inverted_reverse_ cfg = true → lx = 0.5%float → yw = 0.3%float →
       angular_z twist = 0.3%float).
Proof.
  intros Hst Hen Hx Hy Hz Hr Hp Hw.
  eexists. split; [by apply fillCmdVelMsg_eq |]. simpl.
  repeat split.
  - intros Hmode.
    rewrite (callback_manual cfg ev n st ptch yw) with (twist := mkTwist lx ly lz roll ptch (if (lx <? 0)%float && inverted_reverse_ cfg then (- yw)%float else yw))
      by (done || by apply fillCmdVelMsg_eq).
    destruct (publish_stamped_twist_ cfg); eexists _, _; split; reflexivity.
  - intros -> -> ->. reflexivity.
  - intros -> -> ->. reflexivity.
Qed.

(** ** The gimbal integrator *)






(** ** The goal-submission throttle *)

Section Throttle.

Context (cfg : Config) (joy_msg : Joy) (st : EnableState).
Context (x y vp vy : float).
Context (Hmode : control_mode_ cfg ≠ "manual_control").
Context (Hst : enable_state cfg joy_msg = Some st).
Context (Hen : enabled st = true).
Context (Hx : chassis_val cfg joy_msg (profile st) "x" = Some x).
Context (Hy : chassis_val cfg joy_msg (profile st) "y" = Some y).
Context (Hp : gimbal_val cfg joy_msg (profile st) "pitch" = Some vp).
Context (Hw : gimbal_val cfg joy_msg (profile st) "yaw" = Some vy).
Context (Hd : in_deadzone x y = false).

(** One attempt: a goal that passed the deadzone and the transform. *)
Lemma goal_attempt e transform n :
  lookupTransform e = Some transform →
  let ref := throttle_reference e n 0 in
  let t := now_reads e (throttle_read n 0) in
  ∃ n' out,
    callback cfg (mkEvent joy_msg e) n = Some (n', out)
    ∧ length (joint_states out) = 1%nat
    ∧ sent_disable_msg_ n' = true
    ∧ (throttle_open (t - ref) = true →
       goals out = [mkGoal (now_reads e 0) x y transform]
       ∧ last_goal_time n' = Some t)
    ∧ (throttle_open (t - ref) = false →
       goals out = [] ∧ last_goal_time n' = Some ref).
Proof using All.
  intros Htf ref t.
  rewrite (callback_goal_attempt cfg (mkEvent joy_msg e) n st vp vy)
    with (x := x) (y := y) (transform := transform) by done.
  simpl. fold ref t.
  destruct (throttle_open (t - ref)); eexists _, _;
    (split; [reflexivity |]); simpl; repeat split; intros; done.
Qed.

(** Two attempts in a row, on the same sample contents. *)
Lemma two_goal_attempts e1 tf1 e2 tf2 n :
  lookupTransform e1 = Some tf1 →
  lookupTransform e2 = Some tf2 →
  let ref := throttle_reference e1 n 0 in
  let t1 := now_reads e1 (throttle_read n 0) in
  let t2 := now_reads e2 1 in
  ∃ n' out,
    run cfg [mkEvent joy_msg e1; mkEvent joy_msg e2] n = Some (n', out)
    ∧ length (joint_states out) = 2%nat
    ∧ length (goals out)
      = (Nat.b2n (throttle_open (t1 - ref))
         + Nat.b2n (throttle_open
                      (t2 - (if throttle_open (t1 - ref) then t1 else ref))))%nat.
Proof using All.
  intros Htf1 Htf2 ref t1 t2.
  destruct (goal_attempt e1 tf1 n Htf1) as (n1 & out1 & Hc1 & Hj1 & _ & Ho1 & Hcl1).
  fold ref t1 in Ho1, Hcl1.
  destruct (goal_attempt e2 tf2 n1 Htf2) as (n2 & out2 & Hc2 & Hj2 & _ & Ho2 & Hcl2).
  simpl. rewrite Hc1, Hc2. eexists _, _. split; [reflexivity |].
  unfold joint_states, goals in *. rewrite app_nil_r, !omap_app, !length_app.
  split; [lia |].
  assert (Hlast : last_goal_time n1
                  = Some (if throttle_open (t1 - ref) then t1 else ref)).
  { destruct (throttle_open (t1 - ref)); [by apply Ho1 | by apply Hcl1]. }
  unfold throttle_reference, throttle_read in Ho2, Hcl2.
  rewrite Hlast in Ho2, Hcl2. fold t2 in Ho2, Hcl2.
  assert (H1 : length (omap goal_of out1) = Nat.b2n (throttle_open (t1 - ref))).
  { destruct (throttle_open (t1 - ref)).
    - destruct Ho1 as [-> _]; done.
    - destruct Hcl1 as [-> _]; done. }
  rewrite H1. f_equal.
  destruct (throttle_open (t2 - _)).
  - destruct Ho2 as [-> _]; done.
  - destruct Hcl2 as [-> _]; done.
Qed.

End Throttle.

(** C3, as amended.  A goal that passed the deadzone and the transform is
    submitted exactly when the throttle test holds on the time since the
    throttle timestamp, which needs at least 250 000 000 ns on the clock;
    the timestamp moves to the current time on a submission and stays
    otherwise, and the gimbal joint command is sent either way.  Of two
    such samples in a row whose current times are 0.1 s apart at most one
    is submitted; 0.3 s apart, both are submitted when the first one is,
    and only the second when the first one is throttled. *)
Theorem goal_submission_throttle (cfg : Config) (joy_msg : Joy)
    (st : EnableState) (x y vp vy : float) (e1 e2 : Env)
    (tf1 tf2 : TransformStamped) (n : Node) :
  control_mode_ cfg ≠ "manual_control" →
  enable_state cfg joy_msg = Some st →
  enabled st = true →
  chassis_val cfg joy_msg (profile st) "x" = Some x →
  chassis_val cfg joy_msg (profile st) "y" = Some y →
  gimbal_val cfg joy_msg (profile st) "pitch" = Some vp →
  gimbal_val cfg joy_msg (profile st) "yaw" = Some vy →
  in_deadzone x y = false →
  lookupTransform e1 = Some tf1 →
  lookupTransform e2 = Some tf2 →
  let ref := throttle_reference e1 n 0 in
  let t1 := now_reads e1 (throttle_read n 0) in
  let t2 := now_reads e2 1 in
  (∃ n' out,
     callback cfg (mkEvent joy_msg e1) n = Some (n', out)
     ∧ length (joint_states out) = 1%nat
     ∧ (throttle_open (t1 - ref) = true →
        goals out = [mkGoal (now_reads e1 0) x y tf1]
        ∧ last_goal_time n' = Some t1)
     ∧ (throttle_open (t1 - ref) = false →
        goals out = [] ∧ last_goal_time n' = Some ref)
     ∧ (goals out ≠ [] → 250000000 <= t1 - ref)
     ∧ (250000000 <= t1 - ref < 2 ^ 53 → goals out ≠ []))
  ∧ (∃ n' out,
       run cfg [mkEvent joy_msg e1; mkEvent joy_msg e2] n = Some (n', out)
       ∧ length (joint_states out) = 2%nat
       ∧ (t2 - t1 = 100000000 → (length (goals out) <= 1)%nat)
       ∧ (t2 - t1 = 300000000 → throttle_open (t1 - ref) = true →
          length (goals out) = 2%nat)
       ∧ (t2 - t1 = 300000000 → throttle_open (t1 - ref) = false →
          0 <= t1 - ref → t2 - ref < 2 ^ 53 →
          length (goals out) = 1%nat)).
Proof.
  intros Hmode Hst Hen Hx Hy Hp Hw Hd Htf1 Htf2 ref t1 t2. split.
  - destruct (goal_attempt cfg joy_msg st x y vp vy Hmode Hst Hen Hx Hy Hp Hw
                Hd e1 tf1 n Htf1) as (n' & out & Hc & Hj & _ & Ho & Hcl).
    fold ref t1 in Ho, Hcl.
    exists n', out.
    split; [done |]. split; [done |]. split; [done |]. split; [done |].
    split.
    + intros Hne. apply throttle_open_elapsed.
      destruct (throttle_open (t1 - ref)); [done |].
      by destruct Hcl as [? _].
    + intros [Hge Hlt]. apply throttle_open_iff in Hge; [| done].
      destruct (Ho Hge) as [-> _]. done.
  - destruct (two_goal_attempts cfg joy_msg st x y vp vy Hmode Hst Hen Hx Hy Hp
                Hw Hd e1 tf1 e2 tf2 n Htf1 Htf2) as (n' & out & Hr & Hj & Hg).
    fold ref t1 t2 in Hg.
    exists n', out.
    split; [done |]. split; [done |]. split; [| split].
    + intros H01. rewrite Hg.
      destruct (throttle_open (t1 - ref)); simpl.
      * rewrite H01. by vm_compute.
      * destruct (throttle_open _); simpl; lia.
    + intros H03 Hopen. rewrite Hg, Hopen, H03. by vm_compute.
    + intros H03 Hclosed Hmono Hbound. rewrite Hg, Hclosed. simpl.
      assert (Hopen2 : throttle_open (t2 - ref) = true)
        by (apply throttle_open_iff; lia).
      rewrite Hopen2. reflexivity.
Qed.

(** C10. The first sample to reach the submission stage takes the throttle
    timestamp from the clock at that very attempt; unless the clock then
    advances by 250 000 000 ns before the next read, no goal is submitted
    and the timestamp stays at that initial reading. *)
Theorem first_attempt_never_submits (cfg : Config) (ev : Event) (n : Node)
    (st : EnableState) (x y vp vy : float) (transform : TransformStamped) :
  control_mode_ cfg ≠ "manual_control" →
  enable_state cfg (ev_joy ev) = Some st →
  enabled st = true →
  chassis_val cfg (ev_joy ev) (profile st) "x" = Some x →
  chassis_val cfg (ev_joy ev) (profile st) "y" = Some y →
  gimbal_val cfg (ev_joy ev) (profile st) "pitch" = Some vp →
  gimbal_val cfg (ev_joy ev) (profile st) "yaw" = Some vy →
  in_deadzone x y = false →
  lookupTransform (ev_env ev) = Some transform →
  last_goal_time n = None →
  now_reads (ev_env ev) 2 - now_reads (ev_env ev) 1 < 250000000 →
  ∃ n' out,
    callback cfg ev n = Some (n', out)
    ∧ goals out = []
    ∧ last_goal_time n' = Some (now_reads (ev_env ev) 1).
Proof.
  intros Hmode Hst Hen Hx Hy Hp Hw Hd Htf Hfirst Hclock.
  rewrite (callback_goal_attempt cfg ev n st vp vy)
    with (x := x) (y := y) (transform := transform) by done.
  unfold throttle_reference, throttle_read. rewrite Hfirst. simpl.
  rewrite throttle_closed by done.
  eexists _, _. split; [reflexivity |]. split; reflexivity.
Qed.

(** * Instances on the example node *)

Ltac evaluate := vm_compute; first [reflexivity | discriminate | congruence].

Lemma auto_config_wf : wf_config auto_config.
Proof.
  repeat split.
  - intros k idx. unfold auto_config, example_config. simpl.
    rewrite !lookup_insert. repeat case_decide; try discriminate;
      intros [= <-]; lia.
  - intros k idx. unfold auto_config, example_config. simpl.
    rewrite !lookup_insert. repeat case_decide; try discriminate;
      intros [= <-]; lia.
  - intros _. evaluate.
Qed.

Lemma drive_joy_normal cfg_mode stamped inverted scale :
  enable_state (example_config cfg_mode stamped inverted scale) drive_joy
  = Some Normal.
Proof. reflexivity. Qed.

Lemma getVal_spec_witness :
  int_sized (axes drive_joy)
  ∧ axis_gimbal_map_ negative_axis_config !! "pitch" = Some (-2)
  ∧ map_index (scale_gimbal_map_ negative_axis_config) "normal" !! "pitch"
    = Some 0.5%float
  ∧ getVal drive_joy (axis_gimbal_map_ negative_axis_config)
      (map_index (scale_gimbal_map_ negative_axis_config) "normal") "pitch"
    = None
  ∧ getVal drive_joy (axis_chassis_map_ auto_config)
      (map_index (scale_chassis_map_ auto_config) "normal") "x"
    = Some (1 * 0.5)%float.
Proof.
  assert (Hsz : int_sized (axes drive_joy)) by evaluate.
  assert (Hidx : axis_gimbal_map_ negative_axis_config !! "pitch"
                 = Some (-2)) by evaluate.
  assert (Hscale : map_index (scale_gimbal_map_ negative_axis_config)
                     "normal" !! "pitch" = Some 0.5%float) by evaluate.
  assert (Hx : axis_chassis_map_ auto_config !! "x" = Some 0) by evaluate.
  assert (Hsx : map_index (scale_chassis_map_ auto_config) "normal" !! "x"
                = Some 0.5%float) by evaluate.
  assert (Hrange : 0 <= 0 < size (axes drive_joy)) by (vm_compute; done).
  split; [exact Hsz |]. split; [exact Hidx |]. split; [exact Hscale |].
  split.
  - destruct (getVal_spec drive_joy (axis_gimbal_map_ negative_axis_config)
                (map_index (scale_gimbal_map_ negative_axis_config) "normal")
                "pitch" Hsz) as (_ & _ & _ & _ & _ & Hbelow & _).
    apply (Hbelow (-2) 0.5%float Hidx ltac:(lia) Hscale).
  - destruct (getVal_spec drive_joy (axis_chassis_map_ auto_config)
                (map_index (scale_chassis_map_ auto_config) "normal") "x" Hsz)
      as (_ & _ & _ & _ & Hmapped & _).
    destruct (Hmapped 0 0.5%float Hx Hrange Hsx) as (a & Ha & Hval).
    rewrite Hval. injection Ha as <-. reflexivity.
Defined.

Lemma stop_command_once_witness :
  ∃ n1,
    sent_disable_msg_ n1 = true
    ∧ run manual_config [released_event 6; released_event 7; released_event 8] n1
      = Some (set_sent_disable_msg false n1, [PubCmdVel zero_twist]).
Proof.
  destruct (callback manual_config (drive_event 5) fresh_node)
    as [[n1 out1] |] eqn:Hcb; [| vm_compute in Hcb; discriminate].
  destruct (stop_command_once manual_config (drive_event 5) fresh_node n1 out1
              Normal) as [Harmed Hstop]; [evaluate | evaluate | exact Hcb |].
  exists n1. split; [exact Harmed |].
  destruct (Hstop (released_event 6) [released_event 7; released_event 8])
    as (_ & _ & _ & Hrun).
  - repeat constructor.
  - exact Hrun.
Defined.

Lemma goal_submission_throttle_witness :
  ∃ n' out,
    run auto_config [drive_event 1000000000; drive_event 1100000000]
      (set_last_goal_time 0 fresh_node) = Some (n', out)
    ∧ (length (goals out) <= 1)%nat.
Proof.
  assert (H1 : control_mode_ auto_config ≠ "manual_control") by evaluate.
  assert (H2 : enable_state auto_config drive_joy = Some Normal) by evaluate.
  assert (H3 : chassis_val auto_config drive_joy (profile Normal) "x"
               = Some 0.5%float) by evaluate.
  assert (H4 : gimbal_val auto_config drive_joy (profile Normal) "pitch"
               = Some 0%float) by evaluate.
  assert (H5 : gimbal_val auto_config drive_joy (profile Normal) "yaw"
               = Some 0.3%float) by evaluate.
  assert (H6 : in_deadzone 0.5 0.5 = false) by evaluate.
  destruct (goal_submission_throttle auto_config drive_joy Normal 0.5 0.5 0 0.3
              (env_at 1000000000 (Some identity_transform))
              (env_at 1100000000 (Some identity_transform))
              identity_transform identity_transform
              (set_last_goal_time 0 fresh_node)
              H1 H2 eq_refl H3 H3 H4 H5 H6 eq_refl eq_refl)
    as (_ & n' & out & Hrun & _ & H01 & _).
  exists n', out. split; [exact Hrun |]. apply H01. reflexivity.
Defined.

(** C3, as stated, fails on a node that has not attempted a goal yet: of
    two enabled large-displacement samples 0.3 s apart only the second
    one is submitted. *)
Lemma fresh_start_submits_once :
  enable_state auto_config drive_joy = Some Normal
  ∧ chassis_val auto_config drive_joy "normal" "x" = Some 0.5%float
  ∧ chassis_val auto_config drive_joy "normal" "y" = Some 0.5%float
  ∧ in_deadzone 0.5 0.5 = false
  ∧ ∃ n' out,
      run auto_config [drive_event 1000000000; drive_event 1300000000]
        fresh_node = Some (n', out)
      ∧ goals out = [mkGoal 1300000000 0.5 0.5 identity_transform].
Proof.
  split; [evaluate |]. split; [evaluate |]. split; [evaluate |].
  split; [evaluate |].
  eexists _, _. split; vm_compute; reflexivity.
Qed.

Lemma deadzone_no_goal_witness :
  chassis_val (example_config "auto_control" false true 0.05) drive_joy
    "normal" "x" = Some 0.05%float
  ∧ chassis_val (example_config "auto_control" false true 0.05) drive_joy
      "normal" "y" = Some 0.05%float
  ∧ ∃ n' out,
      callback (example_config "auto_control" false true 0.05)
        (drive_event 5) fresh_node = Some (n', out)
      ∧ goals out = []
      ∧ sent_disable_msg_ n' = true.
Proof.
  split; [evaluate |]. split; [evaluate |].
  apply (deadzone_no_goal (example_config "auto_control" false true 0.05)
           (drive_event 5) fresh_node Normal 0.05 0.05 0 0.3); evaluate.
Defined.

Lemma transform_failure_is_local_witness :
  ∃ n' out,
    callback auto_config (mkEvent drive_joy (env_at 5 None)) fresh_node
    = Some (n', out)
    ∧ goals out = []
    ∧ last_goal_time n' = None.
Proof.
  destruct (transform_failure_is_local auto_config
              (mkEvent drive_joy (env_at 5 None)) fresh_node Normal
              0.5 0.5 0 0.3 auto_config_wf)
    as (n' & out & Hcb & Hg & Hl & _);
    [evaluate | evaluate | evaluate | evaluate | evaluate | evaluate
    | evaluate | evaluate | evaluate |].
  exists n', out. repeat split; assumption.
Defined.



Lemma velocity_command_composition_witness :
  ∃ twist,
    fillCmdVelMsg manual_config reverse_joy "normal" = Some twist
    ∧ linear_x twist = (-0.5)%float
    ∧ angular_z twist = (-0.3)%float.
Proof.
  destruct (velocity_command_composition manual_config
              (mkEvent reverse_joy (env_at 5 None)) fresh_node Normal
              (-0.5) 0 0 0 0 0.3)
    as (twist & Hfill & Hx & _ & _ & _ & _ & _ & _ & Hrev & _);
    [evaluate | evaluate | evaluate | evaluate | evaluate | evaluate
    | evaluate | evaluate |].
  exists twist. split; [exact Hfill |]. split; [exact Hx |].
  apply Hrev; reflexivity.
Defined.

Lemma first_attempt_never_submits_witness :
  ∃ n' out,
    callback auto_config (drive_event 1000000000) fresh_node = Some (n', out)
    ∧ goals out = []
    ∧ last_goal_time n' = Some 1000000000.
Proof.
  apply (first_attempt_never_submits auto_config (drive_event 1000000000)
           fresh_node Normal 0.5 0.5 0 0.3 identity_transform); evaluate.
Defined.

(** * Further properties of the node *)

(** ** The paths of a callback *)

Lemma callback_enabled_values cfg ev n st n' out :
  enable_state cfg (ev_joy ev) = Some st →
  enabled st = true →
  callback cfg ev n = Some (n', out) →
  (∃ vp vy,
     gimbal_val cfg (ev_joy ev) (profile st) "pitch" = Some vp
     ∧ gimbal_val cfg (ev_joy ev) (profile st) "yaw" = Some vy)
  ∧ (control_mode_ cfg = "manual_control" →
     ∃ twist, fillCmdVelMsg cfg (ev_joy ev) (profile st) = Some twist)
  ∧ (control_mode_ cfg ≠ "manual_control" →
     ∃ x y,
       chassis_val cfg (ev_joy ev) (profile st) "x" = Some x
       ∧ chassis_val cfg (ev_joy ev) (profile st) "y" = Some y).
Proof.
  intros Hst Hen. rewrite (callback_enabled _ _ _ st) by done.
  destruct (sendCmdVelMsg _ _ _ _ _) as [[u s'] |] eqn:Hs; [| discriminate].
  intros _. unfold sendCmdVelMsg in Hs.
  apply bind_Some in Hs as (u1 & s1 & H1 & Hs).
  apply bind_Some in Hs as (js & s2 & H2 & _).
  split; [| split].
  - unfold fillJointStateMsg, gimbal_val in *. revert H2. exec.
    destruct (last_time (node s1)); exec;
      (destruct (getVal _ _ _ "pitch"); [| discriminate]); exec;
      (destruct (getVal _ _ _ "yaw"); [| discriminate]); eauto.
  - intros Hmode. rewrite Hmode in H1. simpl in H1.
    destruct (publish_stamped_twist_ cfg); revert H1; exec;
      (destruct (fillCmdVelMsg _ _ _); [eauto | discriminate]).
  - intros Hmode. apply String.eqb_neq in Hmode. rewrite Hmode in H1.
    unfold sendGoalPoseAction, chassis_val in *. revert H1. exec.
    destruct (getVal _ _ _ "x"); [| discriminate]. exec.
    destruct (getVal _ _ _ "y"); [| discriminate]. eauto.
Qed.

(** The callback returns exactly along one of its paths. *)
Lemma callback_step_iff cfg ev n n' out :
  callback cfg ev n = Some (n', out) ↔ callback_step cfg ev n n' out.
Proof.
  split.
  - intros Hcb.
    destruct (enable_state cfg (ev_joy ev)) as [st |] eqn:Hst.
    2: { unfold callback in Hcb.
         rewrite joyCallback_dispatch, Hst in Hcb. discriminate. }
    destruct (enabled st) eqn:Hen.
    + destruct (callback_enabled_values _ _ _ _ _ _ Hst Hen Hcb)
        as ((vp & vy & Hp & Hw) & Hman & Hgoal).
      destruct (String.eqb_spec (control_mode_ cfg) "manual_control")
        as [Hmode | Hmode].
      * destruct (Hman Hmode) as [twist Htw].
        rewrite (callback_manual cfg ev n st vp vy Hst Hen Hp Hw twist Hmode Htw)
          in Hcb.
        pose proof (step_manual cfg ev n st vp vy twist Hst Hen Hp Hw Hmode
                      Htw) as Hstep.
        unfold velocity_output, reads_after_velocity in Hstep.
        destruct (publish_stamped_twist_ cfg); by injection Hcb as <- <-.
      * destruct (Hgoal Hmode) as (x & y & Hx & Hy).
        destruct (in_deadzone x y) eqn:Hd.
        { rewrite (callback_goal_deadzone cfg ev n st vp vy Hst Hen Hp Hw x y
                     Hmode Hx Hy Hd) in Hcb.
          injection Hcb as <- <-. by eapply step_deadzone. }
        destruct (lookupTransform (ev_env ev)) as [transform |] eqn:Htf.
        2: { rewrite (callback_goal_tf_failure cfg ev n st vp vy Hst Hen Hp Hw
                       x y Hmode Hx Hy Hd Htf) in Hcb.
             injection Hcb as <- <-. by eapply step_transform_failure. }
        rewrite (callback_goal_attempt cfg ev n st vp vy Hst Hen Hp Hw x y
                   Hmode Hx Hy transform Hd Htf) in Hcb.
        simpl in Hcb.
        destruct (throttle_open _) eqn:Hopen; injection Hcb as <- <-.
        { by eapply step_goal. }
        { by eapply step_throttled. }
    + destruct st; try discriminate.
      destruct (sent_disable_msg_ n) eqn:Harmed.
      * rewrite callback_disabled_armed in Hcb by done.
        injection Hcb as <- <-. by apply step_stop.
      * rewrite callback_disabled_idle in Hcb by done.
        injection Hcb as <- <-. by apply step_idle.
  - intros Hstep.
    destruct Hstep as
      [Hst Hidle | Hst Harmed
      | st vp vy twist Hst Hen Hp Hw Hmode Htw
      | st vp vy x y Hst Hen Hp Hw Hmode Hx Hy Hd
      | st vp vy x y Hst Hen Hp Hw Hmode Hx Hy Hd Htf
      | st vp vy x y transform Hst Hen Hp Hw Hmode Hx Hy Hd Htf Hopen
      | st vp vy x y transform Hst Hen Hp Hw Hmode Hx Hy Hd Htf Hopen].
    + by apply callback_disabled_idle.
    + by apply callback_disabled_armed.
    + rewrite (callback_manual cfg ev n st vp vy Hst Hen Hp Hw twist Hmode Htw).
      unfold velocity_output, reads_after_velocity.
      by destruct (publish_stamped_twist_ cfg).
    + by rewrite (callback_goal_deadzone cfg ev n st vp vy Hst Hen Hp Hw x y
                    Hmode Hx Hy Hd).
    + by rewrite (callback_goal_tf_failure cfg ev n st vp vy Hst Hen Hp Hw x y
                    Hmode Hx Hy Hd Htf).
    + rewrite (callback_goal_attempt cfg ev n st vp vy Hst Hen Hp Hw x y
                 Hmode Hx Hy transform Hd Htf).
      simpl. by rewrite Hopen.
    + rewrite (callback_goal_attempt cfg ev n st vp vy Hst Hen Hp Hw x y
                 Hmode Hx Hy transform Hd Htf).
      simpl. by rewrite Hopen.
Qed.

(** ** Runs, callback by callback *)

Lemma run_cons_Some cfg ev evs n n' out :
  run cfg (ev :: evs) n = Some (n', out) ↔
  ∃ n1 out1 out2,
    callback cfg ev n = Some (n1, out1)
    ∧ run cfg evs n1 = Some (n', out2)
    ∧ out = out1 ++ out2.
Proof.
  simpl. split.
  - destruct (callback cfg ev n) as [[n1 out1] |]; [| discriminate].
    destruct (run cfg evs n1) as [[n2 out2] |] eqn:Hrun; [| discriminate].
    intros [= <- <-]. exists n1, out1, out2. by rewrite Hrun.
  - intros (n1 & out1 & out2 & -> & -> & ->). reflexivity.
Qed.


(** Whatever holds of the messages of every callback holds of the messages
    of a run. *)
Lemma run_Forall cfg (P : Output → Prop) :
  (∀ ev n n' out, callback cfg ev n = Some (n', out) → Forall P out) →
  ∀ evs n n' out, run cfg evs n = Some (n', out) → Forall P out.
Proof.
  intros Hcb. induction evs as [| ev evs IH]; intros n n' out.
  - intros [= <- <-]. constructor.
  - rewrite run_cons_Some. intros (n1 & out1 & out2 & H1 & H2 & ->).
    apply Forall_app. split; [by eapply Hcb | by eapply IH].
Qed.

(** Whatever every callback keeps of the node state, a run keeps. *)
Lemma run_preserves {A} cfg (f : Node → A) :
  (∀ ev n n' out, callback cfg ev n = Some (n', out) → f n' = f n) →
  ∀ evs n n' out, run cfg evs n = Some (n', out) → f n' = f n.
Proof.
  intros Hcb. induction evs as [| ev evs IH]; intros n n' out.
  - by intros [= <- <-].
  - rewrite run_cons_Some. intros (n1 & out1 & out2 & H1 & H2 & ->).
    rewrite (IH _ _ _ H2). by eapply Hcb.
Qed.

Lemma stop_outputs_length cfg e : (length (stop_outputs cfg e) <= 2)%nat.
Proof. unfold stop_outputs. destruct (String.eqb _ _); simpl; lia. Qed.

Lemma callback_length cfg ev n n' out :
  callback cfg ev n = Some (n', out) → (length out <= 2)%nat.
Proof.
  intros H. apply callback_step_iff in H.
  destruct H; simpl; try lia. apply stop_outputs_length.
Qed.

(** X1. Under a well-formed configuration every run of callbacks returns,
    whatever the samples, the clock and the transform buffer do, and it
    sends at most two messages per sample. *)
Theorem well_formed_runs_return (cfg : Config) (evs : list Event) (n : Node) :
  wf_config cfg →
  ∃ n' out,
    run cfg evs n = Some (n', out)
    ∧ (length out <= 2 * length evs)%nat.
Proof.
  intros Hwf. revert n. induction evs as [| ev evs IH]; intros n.
  - exists n, []. split; [reflexivity | simpl; lia].
  - destruct (callback_total cfg Hwf ev n) as (n1 & out1 & Hcb).
    destruct (IH n1) as (n2 & out2 & Hrun & Hlen).
    exists n2, (out1 ++ out2). split.
    + apply run_cons_Some. eexists _, _, _. repeat split; eassumption.
    + rewrite length_app. apply callback_length in Hcb. simpl. lia.
Qed.

(** X2. A gimbal pitch or yaw axis mapped to an index below -1, with a
    scale in the active profile, makes every enabled callback read
    [axes] out of range: the callback has no defined result. *)
Theorem negative_axis_index_undefined (cfg : Config) (ev : Event) (n : Node)
    (st : EnableState) (f : string) (idx : Z) (scale : float) :
  enable_state cfg (ev_joy ev) = Some st →
  enabled st = true →
  f = "pitch" ∨ f = "yaw" →
  axis_gimbal_map_ cfg !! f = Some idx →
  idx < -1 →
  map_index (scale_gimbal_map_ cfg) (profile st) !! f = Some scale →
  int_sized (axes (ev_joy ev)) →
  callback cfg ev n = None.
Proof.
  intros Hst Hen Hf Hidx Hlt Hscale Hsz.
  assert (Hval : gimbal_val cfg (ev_joy ev) (profile st) f = None).
  { unfold gimbal_val. apply (getVal_below_sentinel _ _ _ _ idx scale);
      [done | done | done |].
    rewrite static_cast_int_size by done. unfold size. lia. }
  destruct (callback cfg ev n) as [[n' out] |] eqn:Hcb; [| reflexivity].
  destruct (callback_enabled_values _ _ _ _ _ _ Hst Hen Hcb)
    as ((vp & vy & Hp & Hw) & _).
  destruct Hf as [-> | ->]; congruence.
Qed.

(** X3. An enabled callback ends with exactly one gimbal joint command:
    it names the two gimbal joints, carries the accumulated pitch and yaw
    the node holds after the callback, and its stamp is the new
    integration baseline.  A disabled callback sends no joint command and
    leaves the accumulated angles and the baseline as they were. *)
Theorem joint_command_reports_state (cfg : Config) (ev : Event) (n n' : Node)
    (out : list Output) (st : EnableState) :
  callback cfg ev n = Some (n', out) →
  enable_state cfg (ev_joy ev) = Some st →
  if enabled st then
    ∃ m, joint_states out = [m]
         ∧ last out = Some (PubJointState m)
         ∧ js_name m = ["gimbal_pitch_joint"; "gimbal_yaw_joint"]
         ∧ js_position m = [pitch n'; yaw n']
         ∧ last_time n' = Some (js_stamp m)
  else joint_states out = [] ∧ gimbal_state n' = gimbal_state n.
Proof.
  intros Hcb Hst. apply callback_step_iff in Hcb.
  destruct Hcb as
    [Hst' Hidle | Hst' Harmed
    | st' vp vy twist Hst' Hen _ _ _ _
    | st' vp vy x y Hst' Hen _ _ _ _ _ _
    | st' vp vy x y Hst' Hen _ _ _ _ _ _ _
    | st' vp vy x y transform Hst' Hen _ _ _ _ _ _ _ _
    | st' vp vy x y transform Hst' Hen _ _ _ _ _ _ _ _];
    rewrite Hst in Hst'; injection Hst' as ->; try rewrite Hen.
  - done.
  - simpl. split; [| done]. unfold stop_outputs.
    destruct (String.eqb _ _), (publish_stamped_twist_ cfg); reflexivity.
  - eexists. split; [| split; [reflexivity | by repeat split]].
    unfold velocity_output. by destruct (publish_stamped_twist_ cfg).
  - eexists. by repeat split.
  - eexists. by repeat split.
  - eexists. by repeat split.
  - eexists. by repeat split.
Qed.

(** ** The two modes *)

Lemma stop_outputs_manual cfg e :
  control_mode_ cfg = "manual_control" →
  stop_outputs cfg e
  = [if publish_stamped_twist_ cfg
     then PubCmdVelStamped (now_reads e 0) (robot_base_frame_ cfg) zero_twist
     else PubCmdVel zero_twist].
Proof. intros Hmode. unfold stop_outputs. by rewrite Hmode. Qed.

Lemma callback_manual_motion cfg ev n n' out :
  control_mode_ cfg = "manual_control" →
  callback cfg ev n = Some (n', out) →
  Forall (λ o, is_motion_message o = true) out
  ∧ last_goal_time n' = last_goal_time n.
Proof.
  intros Hmode Hcb. apply callback_step_iff in Hcb.
  destruct Hcb; try congruence.
  - by split.
  - rewrite stop_outputs_manual by done. split; [| done].
    repeat constructor. by destruct (publish_stamped_twist_ cfg).
  - split; [| done]. unfold velocity_output.
    repeat constructor. by destruct (publish_stamped_twist_ cfg).
Qed.

Lemma motion_message_no_goal out :
  Forall (λ o, is_motion_message o = true) out →
  goals out = [] ∧ cancellations out = [].
Proof.
  induction 1 as [| o out Ho _ [IHg IHc]]; [done |].
  unfold goals, cancellations in *.
  destruct o; try discriminate; by split.
Qed.

(** X4. In manual mode no run of callbacks touches the navigation side:
    every message it sends is a velocity command or a gimbal joint
    command, so it submits no goal, requests no cancellation and reports
    no transform failure, and the throttle timestamp stays as it was. *)
Theorem manual_mode_never_navigates (cfg : Config) (evs : list Event)
    (n n' : Node) (out : list Output) :
  control_mode_ cfg = "manual_control" →
  run cfg evs n = Some (n', out) →
  Forall (λ o, is_motion_message o = true) out
  ∧ goals out = []
  ∧ cancellations out = []
  ∧ last_goal_time n' = last_goal_time n.
Proof.
  intros Hmode Hrun.
  assert (Hmotion : Forall (λ o, is_motion_message o = true) out).
  { eapply run_Forall; [| exact Hrun].
    intros ev n1 n2 out1 Hcb.
    by destruct (callback_manual_motion _ _ _ _ _ Hmode Hcb). }
  split; [exact Hmotion |].
  destruct (motion_message_no_goal _ Hmotion) as [Hg Hc].
  split; [exact Hg |]. split; [exact Hc |].
  eapply (run_preserves cfg last_goal_time); [| exact Hrun].
  intros ev n1 n2 out1 Hcb.
  by destruct (callback_manual_motion _ _ _ _ _ Hmode Hcb).
Qed.

Lemma velocity_commands_app out1 out2 :
  velocity_commands (out1 ++ out2)
  = velocity_commands out1 ++ velocity_commands out2.
Proof. apply omap_app. Qed.

Lemma Forall_omap_twist (P : Twist → Prop) out :
  Forall (λ o, match twist_of o with Some t => P t | None => True end) out →
  Forall P (velocity_commands out).
Proof.
  induction 1 as [| o out Ho _ IH]; [constructor |].
  unfold velocity_commands in *. simpl.
  destruct (twist_of o); [by constructor | done].
Qed.


Lemma enabled_not_Disabled st : enabled st = true → st ≠ Disabled.
Proof. by intros H ->. Qed.

Lemma cancellations_stop cfg e :
  cancellations (stop_outputs cfg e)
  = if String.eqb (control_mode_ cfg) "auto_control"
    then [now_reads e 0] else [].
Proof.
  unfold stop_outputs.
  destruct (String.eqb _ _), (publish_stamped_twist_ cfg); reflexivity.
Qed.

(** X6. A callback requests a cancellation exactly on a disable edge in
    "auto_control" mode, and then once, for the goals sent before its
    first clock reading: no enabled sample, no idle disabled sample and
    no other mode ever cancels. *)
Theorem cancellation_only_on_auto_disable_edge (cfg : Config) (ev : Event)
    (n n' : Node) (out : list Output) :
  callback cfg ev n = Some (n', out) →
  (cancellations out ≠ [] ↔
     control_mode_ cfg = "auto_control"
     ∧ enable_state cfg (ev_joy ev) = Some Disabled
     ∧ sent_disable_msg_ n = true)
  ∧ (cancellations out ≠ [] →
     cancellations out = [now_reads (ev_env ev) 0]).
Proof.
  intros Hcb. apply callback_step_iff in Hcb.
  assert (Hen : ∀ st, enable_state cfg (ev_joy ev) = Some st →
                      enabled st = true →
                      ¬ (control_mode_ cfg = "auto_control"
                         ∧ enable_state cfg (ev_joy ev) = Some Disabled
                         ∧ sent_disable_msg_ n = true)).
  { intros st Hst Hen (_ & Hd & _). rewrite Hst in Hd.
    injection Hd as ->. discriminate. }
  destruct Hcb as
    [Hst Hidle | Hst Harmed
    | st vp vy twist Hst Hen' _ _ _ _
    | st vp vy x y Hst Hen' _ _ _ _ _ _
    | st vp vy x y Hst Hen' _ _ _ _ _ _ _
    | st vp vy x y transform Hst Hen' _ _ _ _ _ _ _ _
    | st vp vy x y transform Hst Hen' _ _ _ _ _ _ _ _].
  - split; [| done]. split; [done |]. intros (_ & _ & H). congruence.
  - rewrite cancellations_stop.
    destruct (String.eqb_spec (control_mode_ cfg) "auto_control")
      as [Hmode | Hmode].
    + split; [| done]. split; [done | discriminate].
    + split; [| done]. split; [done |]. by intros (H & _).
  - assert (Hc : cancellations
                   [velocity_output cfg (ev_env ev) twist;
                    PubJointState
                      (joint_command (ev_env ev) (reads_after_velocity cfg)
                         vp vy n)] = []).
    { unfold velocity_output. by destruct (publish_stamped_twist_ cfg). }
    rewrite Hc. split; [| done].
    split; [done |]. intros H. by destruct (Hen st).
  - split; [| done]. split; [done |]. intros H. by destruct (Hen st).
  - split; [| done]. split; [done |]. intros H. by destruct (Hen st).
  - split; [| done]. split; [done |]. intros H. by destruct (Hen st).
  - split; [| done]. split; [done |]. intros H. by destruct (Hen st).
Qed.

(** X7. The dispatch of an enabled sample tests the mode against
    "manual_control" only: under any two other modes, "auto_control" or
    not, an enabled callback does the same, goal submission included. *)
Theorem goal_modes_agree_when_enabled (cfg : Config) (mode1 mode2 : string)
    (ev : Event) (n : Node) (st : EnableState) :
  mode1 ≠ "manual_control" →
  mode2 ≠ "manual_control" →
  enable_state cfg (ev_joy ev) = Some st →
  enabled st = true →
  callback (with_control_mode mode1 cfg) ev n
  = callback (with_control_mode mode2 cfg) ev n.
Proof.
  intros H1 H2 Hst Hen.
  rewrite (callback_enabled (with_control_mode mode1 cfg) ev n st Hst Hen).
  rewrite (callback_enabled (with_control_mode mode2 cfg) ev n st Hst Hen).
  apply String.eqb_neq in H1, H2.
  unfold sendCmdVelMsg. simpl control_mode_. rewrite H1, H2. reflexivity.
Qed.

(** X8. Every velocity message of a run has the form the node was
    configured for: the plain form when [publish_stamped_twist_] is
    unset, the stamped form naming [robot_base_frame_] when it is set;
    the stop command follows the same rule as the drive commands. *)
Theorem velocity_messages_well_formed (cfg : Config) (evs : list Event)
    (n n' : Node) (out : list Output) :
  run cfg evs n = Some (n', out) →
  Forall (velocity_form_ok cfg) out.
Proof.
  apply run_Forall. clear.
  intros ev n n' out Hcb. apply callback_step_iff in Hcb.
  destruct Hcb; repeat constructor.
  - unfold stop_outputs.
    destruct (String.eqb _ _), (publish_stamped_twist_ cfg) eqn:Hs;
      repeat constructor; unfold velocity_form_ok; by rewrite ?Hs.
  - unfold velocity_output, velocity_form_ok.
    by destruct (publish_stamped_twist_ cfg) eqn:Hs.
Qed.

(** ** The command composer, field by field *)

Lemma abs_opp x : abs (- x) = abs x.
Proof.
  apply Prim2SF_inj.
  rewrite !FloatAxioms.abs_spec, FloatAxioms.opp_spec.
  by destruct (Prim2SF x).
Qed.

Lemma fillCmdVelMsg_inv cfg joy_msg which_map twist :
  fillCmdVelMsg cfg joy_msg which_map = Some twist →
  ∃ lx ly lz roll ptch yw,
    chassis_val cfg joy_msg which_map "x" = Some lx
    ∧ chassis_val cfg joy_msg which_map "y" = Some ly
    ∧ chassis_val cfg joy_msg which_map "z" = Some lz
    ∧ gimbal_val cfg joy_msg which_map "roll" = Some roll
    ∧ gimbal_val cfg joy_msg which_map "pitch" = Some ptch
    ∧ gimbal_val cfg joy_msg which_map "yaw" = Some yw
    ∧ twist = mkTwist lx ly lz roll ptch
                (if (lx <? 0)%float && inverted_reverse_ cfg
                 then (- yw)%float else yw).
Proof.
  unfold fillCmdVelMsg, chassis_val, gimbal_val.
  destruct (getVal _ _ _ "x") as [lx |]; [| discriminate]. simpl.
  destruct (getVal _ _ _ "yaw") as [yw |]; [| discriminate]. simpl.
  destruct (getVal _ _ _ "y") as [ly |]; [| discriminate]. simpl.
  destruct (getVal _ _ _ "z") as [lz |]; [| discriminate]. simpl.
  destruct (getVal _ _ _ "pitch") as [ptch |]; [| discriminate]. simpl.
  destruct (getVal _ _ _ "roll") as [roll |]; [| discriminate]. simpl.
  intros [= <-]. by eexists _, _, _, _, _, _.
Qed.

(** X9. Whatever [inverted_reverse_] is set to, the composed velocity
    command has the same linear part and the same angular x and y, and
    its angular z has the same magnitude: the setting can only flip the
    sign of the turn rate. *)
Theorem inverted_reverse_flips_sign_only (cfg : Config) (joy_msg : Joy)
    (which_map : string) (twist : Twist) (b : bool) :
  fillCmdVelMsg cfg joy_msg which_map = Some twist →
  ∃ twist',
    fillCmdVelMsg (with_inverted_reverse b cfg) joy_msg which_map
    = Some twist'
    ∧ linear_x twist' = linear_x twist
    ∧ linear_y twist' = linear_y twist
    ∧ linear_z twist' = linear_z twist
    ∧ angular_x twist' = angular_x twist
    ∧ angular_y twist' = angular_y twist
    ∧ abs (angular_z twist') = abs (angular_z twist).
Proof.
  intros H.
  apply fillCmdVelMsg_inv in H
    as (lx & ly & lz & roll & ptch & yw & Hx & Hy & Hz & Hr & Hp & Hw & ->).
  eexists. split.
  - by apply (fillCmdVelMsg_eq (with_inverted_reverse b cfg) joy_msg which_map
                lx ly lz roll ptch yw).
  - simpl. repeat split.
    destruct (lx <? 0)%float, b, (inverted_reverse_ cfg); simpl;
      by rewrite ?abs_opp.
Qed.

(** ** Silence *)

Lemma stop_outputs_nonempty cfg e : stop_outputs cfg e ≠ [].
Proof. unfold stop_outputs. by destruct (String.eqb _ _). Qed.

(** X10. A callback sends nothing exactly when the sample is disabled and
    no stop is owed, and then the node state is untouched; an enabled
    sample is never passed over in silence. *)
Theorem silent_exactly_when_idle (cfg : Config) (ev : Event) (n n' : Node)
    (out : list Output) :
  callback cfg ev n = Some (n', out) →
  (out = [] ↔
     enable_state cfg (ev_joy ev) = Some Disabled
     ∧ sent_disable_msg_ n = false)
  ∧ (out = [] → n' = n).
Proof.
  intros Hcb. apply callback_step_iff in Hcb.
  assert (Hen : ∀ st, enable_state cfg (ev_joy ev) = Some st →
                      enabled st = true →
                      ¬ (enable_state cfg (ev_joy ev) = Some Disabled
                         ∧ sent_disable_msg_ n = false)).
  { intros st Hst Hen (Hd & _). rewrite Hst in Hd.
    injection Hd as ->. discriminate. }
  destruct Hcb as
    [Hst Hidle | Hst Harmed
    | st vp vy twist Hst Hen' _ _ _ _
    | st vp vy x y Hst Hen' _ _ _ _ _ _
    | st vp vy x y Hst Hen' _ _ _ _ _ _ _
    | st vp vy x y transform Hst Hen' _ _ _ _ _ _ _ _
    | st vp vy x y transform Hst Hen' _ _ _ _ _ _ _ _].
  - done.
  - pose proof (stop_outputs_nonempty cfg (ev_env ev)).
    split; [| done]. split; [done |]. intros (_ & H'). congruence.
  - split; [| done]. split; [done |]. intros H. by destruct (Hen st).
  - split; [| done]. split; [done |]. intros H. by destruct (Hen st).
  - split; [| done]. split; [done |]. intros H. by destruct (Hen st).
  - split; [| done]. split; [done |]. intros H. by destruct (Hen st).
  - split; [| done]. split; [done |]. intros H. by destruct (Hen st).
Qed.

(** ** The deadzone test on a NaN *)

Lemma SFcompare_refl_finite s m e :
  SFcompare (S754_finite s m e) (S754_finite s m e) = Some Eq.
Proof.
  simpl. rewrite Z.compare_refl.
  change (PosDef.Pos.compare_cont Eq m m) with (Pos.compare m m).
  rewrite Pos.compare_refl. by destruct s.
Qed.

Lemma is_nan_Prim2SF x : is_nan x = true ↔ Prim2SF x = S754_nan.
Proof.
  unfold is_nan. rewrite FloatAxioms.eqb_spec. unfold SFeqb.
  destruct (Prim2SF x) as [s | s | | s m e].
  - by destruct s.
  - by destruct s.
  - done.
  - by rewrite SFcompare_refl_finite.
Qed.

Lemma abs_nan_not_small x : is_nan x = true → (abs x <=? 0.1)%float = false.
Proof.
  intros H. apply is_nan_Prim2SF in H.
  by rewrite FloatAxioms.leb_spec, FloatAxioms.abs_spec, H.
Qed.

(** X11. A displacement with a NaN component is never in the deadzone:
    both comparisons of the test must hold and a comparison with a NaN
    does not, so such a displacement goes on to the goal stage. *)
Theorem nan_is_outside_deadzone (x y : float) :
  is_nan x = true ∨ is_nan y = true →
  in_deadzone x y = false.
Proof.
  unfold in_deadzone. intros [H | H].
  - by rewrite (abs_nan_not_small x H).
  - rewrite (abs_nan_not_small y H). apply andb_false_r.
Qed.

(** ** The node as the constructor leaves it *)

Lemma default_config_wf : wf_config default_config.
Proof.
  repeat split.
  - intros k idx. unfold default_config. simpl.
    rewrite !lookup_insert. repeat case_decide; try discriminate;
      intros [= <-]; lia.
  - intros k idx. unfold default_config. simpl.
    rewrite !lookup_insert. repeat case_decide; try discriminate;
      intros [= <-]; lia.
  - intros _. unfold default_config. simpl. lia.
Qed.

Lemma default_config_twist joy_msg which_map twist :
  fillCmdVelMsg default_config joy_msg which_map = Some twist →
  linear_y twist = 0%float ∧ linear_z twist = 0%float
  ∧ angular_x twist = 0%float ∧ angular_y twist = 0%float.
Proof.
  intros H. apply fillCmdVelMsg_inv in H
    as (lx & ly & lz & roll & ptch & yw & Hx & Hy & Hz & Hr & Hp & Hw & ->).
  unfold chassis_val, gimbal_val in *.
  rewrite getVal_unmapped in Hy by reflexivity.
  rewrite getVal_absent_axis in Hz by reflexivity.
  rewrite getVal_unmapped in Hr by reflexivity.
  rewrite getVal_unmapped in Hp by reflexivity.
  simpl. by injection Hy as <-; injection Hz as <-; injection Hr as <-;
    injection Hp as <-.
Qed.

(** X12. With the constructor's defaults (manual mode, enable on button 5,
    no turbo button, chassis x on axis 5 and gimbal yaw on axis 2) the
    turbo branch is never taken, every run returns, nothing goes to the
    navigation side, and every velocity command has linear y and z and
    angular x and y equal to zero. *)
Theorem default_config_commands (evs : list Event) (n : Node) :
  (∀ joy_msg, turbo_cond default_config joy_msg = Some false)
  ∧ ∃ n' out,
      run default_config evs n = Some (n', out)
      ∧ goals out = []
      ∧ cancellations out = []
      ∧ Forall (λ t, linear_y t = 0%float ∧ linear_z t = 0%float
                     ∧ angular_x t = 0%float ∧ angular_y t = 0%float)
          (velocity_commands out).
Proof.
  split; [reflexivity |].
  destruct (run_total default_config default_config_wf evs n)
    as (n' & out & Hrun).
  exists n', out. split; [exact Hrun |].
  assert (Hmotion : Forall (λ o, is_motion_message o = true) out).
  { eapply run_Forall; [| exact Hrun].
    intros ev n1 n2 out1 Hcb.
    by destruct (callback_manual_motion default_config _ _ _ _ eq_refl Hcb). }
  destruct (motion_message_no_goal _ Hmotion) as [Hg Hc].
  split; [exact Hg |]. split; [exact Hc |].
  apply Forall_omap_twist. eapply run_Forall; [| exact Hrun].
  intros ev n1 n2 out1 Hcb. apply callback_step_iff in Hcb.
  destruct Hcb as
    [_ _ | _ _ | st vp vy twist _ _ _ _ _ Htw
    | st vp vy x y _ _ _ _ Hmode _ _ _
    | st vp vy x y _ _ _ _ Hmode _ _ _ _
    | st vp vy x y transform _ _ _ _ Hmode _ _ _ _ _
    | st vp vy x y transform _ _ _ _ Hmode _ _ _ _ _];
    try (by destruct Hmode).
  - constructor.
  - repeat constructor.
  - apply default_config_twist in Htw. repeat constructor; simpl; tauto.
Qed.

(** ** Integration across a pause *)




(** ** Button indices past the end *)

(** X14. A button index at or past the end of the sample's [buttons] is
    never read and counts as released: with the enable button required
    and out of range, and the turbo button unset or out of range, the
    sample is disabled. *)
Theorem button_past_end_is_released (cfg : Config) (joy_msg : Joy) :
  int_sized (buttons joy_msg) →
  require_enable_button_ cfg = true →
  size (buttons joy_msg) <= enable_button_ cfg →
  enable_turbo_button_ cfg < 0
  ∨ size (buttons joy_msg) <= enable_turbo_button_ cfg →
  enable_state cfg joy_msg = Some Disabled.
Proof.
  intros Hsz Hreq He Ht. unfold enable_state, turbo_cond, enable_cond.
  rewrite static_cast_int_size by done. rewrite Hreq. simpl.
  destruct (Z.ltb_spec (enable_button_ cfg) (size (buttons joy_msg)));
    [lia |].
  destruct (Z.leb_spec 0 (enable_turbo_button_ cfg)); simpl; [| done].
  destruct (Z.ltb_spec (enable_turbo_button_ cfg) (size (buttons joy_msg)));
    [lia | done].
Qed.

(** ** The transform buffer in manual mode *)

Lemma callback_step_manual_transform cfg joy_msg clock tf1 tf2 n n' out :
  control_mode_ cfg = "manual_control" →
  callback_step cfg (mkEvent joy_msg (mkEnv clock tf1)) n n' out →
  callback_step cfg (mkEvent joy_msg (mkEnv clock tf2)) n n' out.
Proof.
  intros Hmode Hstep.
  destruct Hstep as
    [Hst Hidle | Hst Harmed
    | st vp vy twist Hst Hen Hp Hw _ Htw
    | st vp vy x y _ _ _ _ Hm _ _ _
    | st vp vy x y _ _ _ _ Hm _ _ _ _
    | st vp vy x y transform _ _ _ _ Hm _ _ _ _ _
    | st vp vy x y transform _ _ _ _ Hm _ _ _ _ _];
    try (by destruct Hm).
  - by apply step_idle.
  - by apply (step_stop cfg (mkEvent joy_msg (mkEnv clock tf2))).
  - by apply (step_manual cfg (mkEvent joy_msg (mkEnv clock tf2)) n st vp vy
                twist).
Qed.

(** X15. In manual mode the transform buffer is never consulted: the
    callback does the same whether a transform is available or not. *)
Theorem manual_mode_ignores_transform (cfg : Config) (joy_msg : Joy)
    (clock : nat → Time) (tf1 tf2 : option TransformStamped) (n : Node) :
  control_mode_ cfg = "manual_control" →
  callback cfg (mkEvent joy_msg (mkEnv clock tf1)) n
  = callback cfg (mkEvent joy_msg (mkEnv clock tf2)) n.
Proof.
  intros Hmode.
  destruct (callback cfg (mkEvent joy_msg (mkEnv clock tf1)) n)
    as [[n1 out1] |] eqn:H1.
  - apply callback_step_iff in H1.
    apply (callback_step_manual_transform _ _ _ tf1 tf2) in H1; [| done].
    apply callback_step_iff in H1. by rewrite H1.
  - destruct (callback cfg (mkEvent joy_msg (mkEnv clock tf2)) n)
      as [[n2 out2] |] eqn:H2; [| reflexivity].
    apply callback_step_iff in H2.
    apply (callback_step_manual_transform _ _ _ tf2 tf1) in H2; [| done].
    apply callback_step_iff in H2. congruence.
Qed.

(** ** Goals of a run *)

Lemma callback_goals cfg ev n n' out :
  callback cfg ev n = Some (n', out) →
  Forall (λ g, in_deadzone (goal_x g) (goal_y g) = false) (goals out)
  ∧ (length (goals out) <= 1)%nat.
Proof.
  intros Hcb. apply callback_step_iff in Hcb.
  destruct Hcb as
    [_ _ | _ _ | st vp vy twist _ _ _ _ _ _
    | st vp vy x y _ _ _ _ _ _ _ _
    | st vp vy x y _ _ _ _ _ _ _ _ _
    | st vp vy x y transform _ _ _ _ _ _ _ Hd _ _
    | st vp vy x y transform _ _ _ _ _ _ _ _ _ _].
  - split; [constructor | simpl; lia].
  - unfold stop_outputs.
    destruct (String.eqb _ _), (publish_stamped_twist_ cfg);
      (split; [constructor | simpl; lia]).
  - unfold velocity_output.
    destruct (publish_stamped_twist_ cfg);
      (split; [constructor | simpl; lia]).
  - split; [constructor | simpl; lia].
  - split; [constructor | simpl; lia].
  - split; [| simpl; lia].
    unfold goals. simpl. constructor; [exact Hd | constructor].
  - split; [constructor | simpl; lia].
Qed.

(** X16. Every goal a run submits carries a displacement outside the
    deadzone, and a run submits at most one goal per sample. *)
Theorem submitted_goals_outside_deadzone (cfg : Config) (evs : list Event)
    (n n' : Node) (out : list Output) :
  run cfg evs n = Some (n', out) →
  Forall (λ g, in_deadzone (goal_x g) (goal_y g) = false) (goals out)
  ∧ (length (goals out) <= length evs)%nat.
Proof.
  revert n out. induction evs as [| ev evs IH]; intros n out.
  - intros [= <- <-]. split; [constructor | reflexivity].
  - rewrite run_cons_Some. intros (n1 & out1 & out2 & Hcb & Hrun & ->).
    destruct (callback_goals _ _ _ _ _ Hcb) as [Hd1 Hl1].
    destruct (IH _ _ Hrun) as [Hd2 Hl2].
    unfold goals in *. rewrite omap_app, length_app. split.
    + apply Forall_app. by split.
    + simpl. lia.
Qed.

(** * Further instances on the example node *)

Lemma well_formed_runs_return_witness :
  ∃ n' out,
    run auto_config [drive_event 5; released_event 6] fresh_node
    = Some (n', out)
    ∧ (length out <= 4)%nat.
Proof.
  apply (well_formed_runs_return auto_config
           [drive_event 5; released_event 6] fresh_node auto_config_wf).
Defined.

Lemma negative_axis_index_undefined_witness :
  callback negative_axis_config (drive_event 5) fresh_node = None.
Proof.
  assert (H1 : enable_state negative_axis_config (ev_joy (drive_event 5))
               = Some Normal) by evaluate.
  assert (H2 : axis_gimbal_map_ negative_axis_config !! "pitch" = Some (-2))
    by evaluate.
  assert (H3 : map_index (scale_gimbal_map_ negative_axis_config)
                 (profile Normal) !! "pitch" = Some 0.5%float) by evaluate.
  assert (H4 : int_sized (axes (ev_joy (drive_event 5)))) by evaluate.
  apply (negative_axis_index_undefined negative_axis_config (drive_event 5)
           fresh_node Normal "pitch" (-2) 0.5 H1 eq_refl
           (or_introl eq_refl) H2 ltac:(lia) H3 H4).
Defined.

Lemma joint_command_reports_state_witness :
  ∃ n' out m,
    callback manual_config (drive_event 5) fresh_node = Some (n', out)
    ∧ joint_states out = [m]
    ∧ js_position m = [pitch n'; yaw n'].
Proof.
  destruct (callback manual_config (drive_event 5) fresh_node)
    as [[n' out] |] eqn:Hcb; [| vm_compute in Hcb; discriminate].
  assert (Hst : enable_state manual_config (ev_joy (drive_event 5))
                = Some Normal) by evaluate.
  pose proof (joint_command_reports_state manual_config (drive_event 5)
                fresh_node n' out Normal Hcb Hst) as H.
  simpl in H. destruct H as (m & Hm & _ & _ & Hpos & _).
  by exists n', out, m.
Defined.

Lemma manual_mode_never_navigates_witness :
  ∃ n' out,
    run manual_config [drive_event 5; released_event 6] fresh_node
    = Some (n', out)
    ∧ goals out = []
    ∧ last_goal_time n' = None.
Proof.
  destruct (run manual_config [drive_event 5; released_event 6] fresh_node)
    as [[n' out] |] eqn:Hrun; [| vm_compute in Hrun; discriminate].
  assert (Hmode : control_mode_ manual_config = "manual_control")
    by evaluate.
  destruct (manual_mode_never_navigates manual_config
              [drive_event 5; released_event 6] fresh_node n' out Hmode Hrun)
    as (_ & Hg & _ & Hl).
  by exists n', out.
Defined.


Lemma cancellation_only_on_auto_disable_edge_witness :
  ∃ n' out,
    callback auto_config (released_event 7) (mkNode true 0 0 None None)
    = Some (n', out)
    ∧ cancellations out = [7].
Proof.
  destruct (callback auto_config (released_event 7)
              (mkNode true 0 0 None None))
    as [[n' out] |] eqn:Hcb; [| vm_compute in Hcb; discriminate].
  assert (Hmode : control_mode_ auto_config = "auto_control") by evaluate.
  assert (Hst : enable_state auto_config (ev_joy (released_event 7))
                = Some Disabled) by evaluate.
  destruct (cancellation_only_on_auto_disable_edge auto_config
              (released_event 7) (mkNode true 0 0 None None) n' out Hcb)
    as [Hiff Hone].
  exists n', out. split; [reflexivity |].
  apply Hone, Hiff. by repeat split.
Defined.

Lemma goal_modes_agree_when_enabled_witness :
  callback (with_control_mode "auto_control" auto_config) (drive_event 5)
    fresh_node
  = callback (with_control_mode "idle" auto_config) (drive_event 5)
      fresh_node.
Proof.
  assert (H1 : "auto_control" ≠ "manual_control") by discriminate.
  assert (H2 : "idle" ≠ "manual_control") by discriminate.
  assert (Hst : enable_state auto_config (ev_joy (drive_event 5))
                = Some Normal) by evaluate.
  exact (goal_modes_agree_when_enabled auto_config "auto_control" "idle"
           (drive_event 5) fresh_node Normal H1 H2 Hst eq_refl).
Defined.

Lemma velocity_messages_well_formed_witness :
  ∃ n' out,
    run (example_config "manual_control" true true 0.5)
      [drive_event 5; released_event 6] fresh_node = Some (n', out)
    ∧ Forall (velocity_form_ok (example_config "manual_control" true true 0.5))
        out.
Proof.
  destruct (run (example_config "manual_control" true true 0.5)
              [drive_event 5; released_event 6] fresh_node)
    as [[n' out] |] eqn:Hrun; [| vm_compute in Hrun; discriminate].
  exists n', out. split; [reflexivity |].
  exact (velocity_messages_well_formed _ _ _ _ _ Hrun).
Defined.

Lemma inverted_reverse_flips_sign_only_witness :
  ∃ twist twist',
    fillCmdVelMsg manual_config reverse_joy "normal" = Some twist
    ∧ fillCmdVelMsg (with_inverted_reverse false manual_config) reverse_joy
        "normal" = Some twist'
    ∧ abs (angular_z twist') = abs (angular_z twist).
Proof.
  destruct (fillCmdVelMsg manual_config reverse_joy "normal")
    as [twist |] eqn:Hfill; [| vm_compute in Hfill; discriminate].
  destruct (inverted_reverse_flips_sign_only manual_config reverse_joy
              "normal" twist false Hfill)
    as (twist' & Hfill' & _ & _ & _ & _ & _ & Habs).
  by exists twist, twist'.
Defined.

Lemma silent_exactly_when_idle_witness :
  ∃ n' out,
    callback manual_config (released_event 6) fresh_node = Some (n', out)
    ∧ out = [] ∧ n' = fresh_node.
Proof.
  destruct (callback manual_config (released_event 6) fresh_node)
    as [[n' out] |] eqn:Hcb; [| vm_compute in Hcb; discriminate].
  assert (Hst : enable_state manual_config (ev_joy (released_event 6))
                = Some Disabled) by evaluate.
  destruct (silent_exactly_when_idle manual_config (released_event 6)
              fresh_node n' out Hcb) as [Hiff Hsame].
  assert (Hout : out = []) by (apply Hiff; by split).
  exists n', out. split; [reflexivity |]. split; [exact Hout |].
  by apply Hsame.
Defined.

Lemma nan_is_outside_deadzone_witness : in_deadzone nan 0.5 = false.
Proof.
  apply nan_is_outside_deadzone. left. reflexivity.
Defined.


Lemma button_past_end_is_released_witness :
  enable_state default_config released_joy = Some Disabled.
Proof.
  assert (Hsz : int_sized (buttons released_joy)) by evaluate.
  assert (He : size (buttons released_joy) <= enable_button_ default_config)
    by evaluate.
  assert (Ht : enable_turbo_button_ default_config < 0) by evaluate.
  exact (button_past_end_is_released default_config released_joy Hsz eq_refl
           He (or_introl Ht)).
Defined.

Lemma manual_mode_ignores_transform_witness :
  callback manual_config (mkEvent drive_joy (env_at 5 None)) fresh_node
  = callback manual_config (drive_event 5) fresh_node.
Proof.
  assert (Hmode : control_mode_ manual_config = "manual_control")
    by evaluate.
  exact (manual_mode_ignores_transform manual_config drive_joy (λ _, 5)
           None (Some identity_transform) fresh_node Hmode).
Defined.

Lemma submitted_goals_outside_deadzone_witness :
  ∃ n' out g,
    run auto_config [drive_event 1000000000; drive_event 1300000000]
      fresh_node = Some (n', out)
    ∧ goals out = [g]
    ∧ in_deadzone (goal_x g) (goal_y g) = false.
Proof.
  destruct (run auto_config [drive_event 1000000000; drive_event 1300000000]
              fresh_node)
    as [[n' out] |] eqn:Hrun; [| vm_compute in Hrun; discriminate].
  destruct (submitted_goals_outside_deadzone auto_config
              [drive_event 1000000000; drive_event 1300000000] fresh_node
              n' out Hrun) as [Hd _].
  assert (Hg : goals out = [mkGoal 1300000000 0.5 0.5 identity_transform]).
  { vm_compute in Hrun. injection Hrun as _ <-. reflexivity. }
  exists n', out, (mkGoal 1300000000 0.5 0.5 identity_transform).
  split; [reflexivity |]. split; [exact Hg |].
  rewrite Hg in Hd. by inversion Hd.
Defined.
